(** * Whispr GNOME Shell indicator: file-based state synchronisation and
      presentation state machine

    A shallow embedding of the extension class [WhisprOverlayExtension]
    (the GNOME Shell companion of the recorder) and the properties of its
    state store, freshness guard, change watcher, presentation state
    machine, level animator and click disambiguator.

    Conventions of the embedding.
    - JavaScript numbers are modelled by exact rationals ([Q]) extended
      with the two infinities that [JSON.parse] can produce; the rounding
      of IEEE doubles is not modelled.
    - The fields [this._x] of the extension object are the fields [_x] of
      the record [ext]; every method is a function that takes the state
      and returns the new state.  [Date.now()] is the extra argument [now].
    - A GLib timeout source is modelled by the time at which it becomes
      due: a timer field holds [Some due] while a source is installed
      (a source id is a positive integer, hence truthy) and [None] when it
      holds [null].  One clock, in milliseconds, serves [Date.now()] and
      the timers, and every read of [Date.now()] during one dispatch
      returns the time of that dispatch.
    - The outcome of the platform calls [load_contents], [TextDecoder.decode]
      and [JSON.parse] is the input [document] of a load.
    - Menu construction ([_buildMenu], [_refreshMenu]), overlay positioning
      and style sheets are not part of the model. *)

From Stdlib Require Import QArith Qround Qabs ZArith List String Ascii Bool Lia Lqa DecimalString.
Import ListNotations.

Local Open Scope Q_scope.

(** ** Constants *)

Definition lower (c : ascii) : ascii :=
  let n := nat_of_ascii c in
  if (65 <=? n)%nat && (n <=? 90)%nat then ascii_of_nat (n + 32) else c.

Fixpoint lowercase (s : string) : string :=
  match s with
  | EmptyString => EmptyString
  | String c r => String (lower c) (lowercase r)
  end.

(** [s.replace(/\.json$/i, '.tmp')] *)
Fixpoint replace_json_suffix (s : string) : string :=
  if (lowercase s =? ".json")%string then ".tmp"%string
  else match s with
       | EmptyString => EmptyString
       | String c r => String c (replace_json_suffix r)
       end.

Definition STATE_FILE : string := "overlay.json".
Definition TRAY_FILE : string := "tray.json".
Definition STATE_TMP_FILE : string := replace_json_suffix STATE_FILE.
Definition TRAY_TMP_FILE : string := replace_json_suffix TRAY_FILE.
Definition BAR_COUNT : nat := 10.
Definition BAR_MAX_HEIGHT : Z := 26.
Definition BAR_MIN_HEIGHT : Z := 10.
Definition BAR_WEIGHTS : list Q :=
  [0.35; 0.55; 0.8; 1.0; 0.9; 0.9; 1.0; 0.8; 0.55; 0.35].
Definition DOUBLE_CLICK_MS : Q := 220.
Definition SUCCESS_FLASH_MS : Q := 3000.
Definition ERROR_FLASH_MS : Q := 4000.
Definition STALE_STATE_MS : Q := 5000.
Definition LOAD_OVERLAY_DELAY_MS : Q := 60.
Definition LOAD_TRAY_DELAY_MS : Q := 120.
Definition METER_INTERVAL_MS : Q := 150.
Definition CLOCK_INTERVAL_MS : Q := 1000.
Definition POLL_INTERVAL_MS : Q := 1000.

(** ** JavaScript values *)

Inductive number :=
| Finite (q : Q)
| PosInfinity
| NegInfinity.

#[local] Set Warnings "-register-all".

Inductive value :=
| VUndefined
| VNull
| VBool (b : bool)
| VNumber (n : number)
| VString (s : string)
| VArray (items : list value)
| VObject (props : list (string * value)).

(** Comparisons of numbers, as booleans. *)
Definition Qltb (a b : Q) : bool := negb (Qle_bool b a).
Definition Qiszero (a : Q) : bool := Qeq_bool a 0.

(** [Boolean(v)] *)
Definition truthy (v : value) : bool :=
  match v with
  | VUndefined | VNull => false
  | VBool b => b
  | VNumber (Finite q) => negb (Qiszero q)
  | VNumber _ => true
  | VString s => negb (s =? "")%string
  | VArray _ | VObject _ => true
  end.

(** Truthiness of a field that holds a finite number or [null]. *)
Definition truthyNum (x : option Q) : bool :=
  match x with
  | Some q => negb (Qiszero q)
  | None => false
  end.

(** [Number.isFinite(v)], returning the number when it holds. *)
Definition isFinite (v : value) : option Q :=
  match v with
  | VNumber (Finite q) => Some q
  | _ => None
  end.

Definition Math_max (a b : Q) : Q := if Qle_bool a b then b else a.
Definition Math_min (a b : Q) : Q := if Qle_bool a b then a else b.
(** [Math.round]: the nearest integer, halves rounded up. *)
Definition Math_round (x : Q) : Z := Qfloor (x + (1 # 2)).
Definition Math_floor (x : Q) : Z := Qfloor x.

(** Own properties of a parsed object (keys are distinct after
    [JSON.parse]). *)
Fixpoint own (props : list (string * value)) (key : string) : value :=
  match props with
  | [] => VUndefined
  | (k, v) :: rest => if (k =? key)%string then v else own rest key
  end.

(** Property read [data.key] for the field names of the two documents.
    [None] is a thrown [TypeError] (the receiver is [null] or
    [undefined]); a receiver that is not an object has none of these
    properties. *)
Definition prop (data : value) (key : string) : option value :=
  match data with
  | VUndefined | VNull => None
  | VObject props => Some (own props key)
  | _ => Some VUndefined
  end.

(** ** Documents

    What reading a state file yields: [load_contents] raises (for
    instance the file is missing), or reports [ok = false], or the decoded
    text makes [JSON.parse] raise, or parsing yields a value. *)
Inductive document :=
| ReadThrows
| ReadNotOk
| ParseThrows
| Parsed (data : value).

Definition bind {A B} (x : option A) (f : A -> option B) : option B :=
  match x with
  | Some a => f a
  | None => None
  end.

Notation "x <- c ;; k" := (bind c (fun x => k))
  (at level 61, c at next level, right associativity).

(** ** StateStore: the recording document *)

Record RecordingState := mkRecordingState {
  recording : bool;
  startedAtMs : option Q;
  level : Q;
  updatedAtMs : option Q
}.

Definition defaultRecordingState : RecordingState :=
  mkRecordingState false None 0 None.

(** The body of the [try] block of [_loadOverlayState]; [None] when an
    exception is thrown inside it. *)
Definition overlayTry (doc : document) : option RecordingState :=
  match doc with
  | ReadThrows => None
  | ReadNotOk => Some defaultRecordingState
  | ParseThrows => None
  | Parsed data =>
      r <- prop data "recording" ;;
      s <- prop data "started_at_ms" ;;
      l <- prop data "level" ;;
      u <- prop data "updated_at_ms" ;;
      Some (mkRecordingState
              (truthy r)
              (isFinite s)
              (match isFinite l with
               | Some q => Math_max 0 (Math_min 1 q)
               | None => 0
               end)
              (isFinite u))
  end.

(** [try { ... } catch (error) { ...defaults... }] *)
Definition overlayRead (doc : document) : RecordingState :=
  match overlayTry doc with
  | Some rs => rs
  | None => defaultRecordingState
  end.

(** [recording && updatedAtMs && Date.now() - updatedAtMs > STALE_STATE_MS] *)
Definition isStale (now : Q) (rs : RecordingState) : bool :=
  recording rs &&
  match updatedAtMs rs with
  | Some u => negb (Qiszero u) && Qltb STALE_STATE_MS (now - u)
  | None => false
  end.

(** The local variables of [_loadOverlayState] when it reaches
    [this._levelTarget = level]. *)
Definition overlayLocals (now : Q) (doc : document) : RecordingState :=
  let rs := overlayRead doc in
  if isStale now rs
  then mkRecordingState false None 0 (updatedAtMs rs)
  else rs.

(** ** StateStore: the tray document *)

Record TrayState := mkTrayState {
  trayRecent : list value;
  lastTranscriptAtMs : option Q;
  lastErrorAtMs : option Q;
  lastError : option string;
  hotkeys : value
}.

Definition defaultTrayState : TrayState :=
  mkTrayState [] None None None (VObject []).

Definition isArray (v : value) : option (list value) :=
  match v with
  | VArray items => Some items
  | _ => None
  end.

Definition isString (v : value) : option string :=
  match v with
  | VString s => Some s
  | _ => None
  end.

(** [v && typeof v === 'object'] *)
Definition isObjectLike (v : value) : bool :=
  match v with
  | VArray _ | VObject _ => true
  | _ => false
  end.

(** The body of the [try] block of [_loadTrayState]. *)
Definition trayTry (doc : document) : option TrayState :=
  match doc with
  | ReadThrows => None
  | ReadNotOk => Some defaultTrayState
  | ParseThrows => None
  | Parsed data =>
      r <- prop data "recent" ;;
      t <- prop data "last_transcript_at_ms" ;;
      e <- prop data "last_error_at_ms" ;;
      m <- prop data "last_error" ;;
      h <- prop data "hotkeys" ;;
      Some (mkTrayState
              (match isArray r with Some items => items | None => [] end)
              (isFinite t)
              (isFinite e)
              (isString m)
              (if isObjectLike h then h else VObject []))
  end.

Definition trayLocals (doc : document) : TrayState :=
  match trayTry doc with
  | Some ts => ts
  | None => defaultTrayState
  end.

(** ** The extension object *)

(** What the panel icon shows: the icon name and style class that
    [_updateIndicator] leaves on [this._indicatorIcon]. *)
Inductive visual :=
| Idle          (* audio-input-microphone-symbolic, no style class *)
| Recording     (* media-record-symbolic, whispr-indicator-recording *)
| SuccessFlash  (* emblem-ok-symbolic, whispr-indicator-success *)
| ErrorFlash.   (* dialog-warning-symbolic, whispr-indicator-error *)

(** The flag of a command line handed to [GLib.spawn_command_line_async]. *)
Inductive flag :=
| Toggle        (* --toggle *)
| Show.         (* --show *)

(** The fields of the extension between [enable] and [disable], followed
    by what is visible of the widgets it owns ([_overlay], [_timeLabel],
    [_indicatorIcon]; [_bars] holds the height of each bar widget) and by
    the commands spawned so far, latest first. *)
Record ext := mkExt {
  _bars : list Z;
  _recording : bool;
  _startedAtMs : option Q;
  _level : Q;
  _levelTarget : Q;
  _lastTranscriptAtMs : option Q;
  _lastErrorAtMs : option Q;
  _lastError : option string;
  _trayRecent : list value;
  _hotkeys : value;
  _meterTimerId : option Q;
  _clockTimerId : option Q;
  _pollTimerId : option Q;
  _clickTimerId : option Q;
  _statusTimerId : option Q;
  _loadOverlayTimerId : option Q;
  _loadTrayTimerId : option Q;
  overlayVisible : bool;
  timeLabelVisible : bool;
  timeLabelText : string;
  indicatorIcon : visual;
  spawned : list flag
}.

(** Field updates: [set_x v s] is [s] after [this._x = v]. *)
Definition set_bars (v : list Z) (s : ext) : ext :=
  mkExt
    v (_recording s) (_startedAtMs s) (_level s) (_levelTarget s)
    (_lastTranscriptAtMs s) (_lastErrorAtMs s) (_lastError s)
    (_trayRecent s) (_hotkeys s) (_meterTimerId s) (_clockTimerId s)
    (_pollTimerId s) (_clickTimerId s) (_statusTimerId s)
    (_loadOverlayTimerId s) (_loadTrayTimerId s) (overlayVisible s)
    (timeLabelVisible s) (timeLabelText s) (indicatorIcon s) (spawned s).

Definition set_recording (v : bool) (s : ext) : ext :=
  mkExt
    (_bars s) v (_startedAtMs s) (_level s) (_levelTarget s)
    (_lastTranscriptAtMs s) (_lastErrorAtMs s) (_lastError s)
    (_trayRecent s) (_hotkeys s) (_meterTimerId s) (_clockTimerId s)
    (_pollTimerId s) (_clickTimerId s) (_statusTimerId s)
    (_loadOverlayTimerId s) (_loadTrayTimerId s) (overlayVisible s)
    (timeLabelVisible s) (timeLabelText s) (indicatorIcon s) (spawned s).

Definition set_startedAtMs (v : option Q) (s : ext) : ext :=
  mkExt
    (_bars s) (_recording s) v (_level s) (_levelTarget s)
    (_lastTranscriptAtMs s) (_lastErrorAtMs s) (_lastError s)
    (_trayRecent s) (_hotkeys s) (_meterTimerId s) (_clockTimerId s)
    (_pollTimerId s) (_clickTimerId s) (_statusTimerId s)
    (_loadOverlayTimerId s) (_loadTrayTimerId s) (overlayVisible s)
    (timeLabelVisible s) (timeLabelText s) (indicatorIcon s) (spawned s).

Definition set_level (v : Q) (s : ext) : ext :=
  mkExt
    (_bars s) (_recording s) (_startedAtMs s) v (_levelTarget s)
    (_lastTranscriptAtMs s) (_lastErrorAtMs s) (_lastError s)
    (_trayRecent s) (_hotkeys s) (_meterTimerId s) (_clockTimerId s)
    (_pollTimerId s) (_clickTimerId s) (_statusTimerId s)
    (_loadOverlayTimerId s) (_loadTrayTimerId s) (overlayVisible s)
    (timeLabelVisible s) (timeLabelText s) (indicatorIcon s) (spawned s).

Definition set_levelTarget (v : Q) (s : ext) : ext :=
  mkExt
    (_bars s) (_recording s) (_startedAtMs s) (_level s) v
    (_lastTranscriptAtMs s) (_lastErrorAtMs s) (_lastError s)
    (_trayRecent s) (_hotkeys s) (_meterTimerId s) (_clockTimerId s)
    (_pollTimerId s) (_clickTimerId s) (_statusTimerId s)
    (_loadOverlayTimerId s) (_loadTrayTimerId s) (overlayVisible s)
    (timeLabelVisible s) (timeLabelText s) (indicatorIcon s) (spawned s).

Definition set_lastTranscriptAtMs (v : option Q) (s : ext) : ext :=
  mkExt
    (_bars s) (_recording s) (_startedAtMs s) (_level s) (_levelTarget s) v
    (_lastErrorAtMs s) (_lastError s) (_trayRecent s) (_hotkeys s)
    (_meterTimerId s) (_clockTimerId s) (_pollTimerId s) (_clickTimerId s)
    (_statusTimerId s) (_loadOverlayTimerId s) (_loadTrayTimerId s)
    (overlayVisible s) (timeLabelVisible s) (timeLabelText s)
    (indicatorIcon s) (spawned s).

Definition set_lastErrorAtMs (v : option Q) (s : ext) : ext :=
  mkExt
    (_bars s) (_recording s) (_startedAtMs s) (_level s) (_levelTarget s)
    (_lastTranscriptAtMs s) v (_lastError s) (_trayRecent s) (_hotkeys s)
    (_meterTimerId s) (_clockTimerId s) (_pollTimerId s) (_clickTimerId s)
    (_statusTimerId s) (_loadOverlayTimerId s) (_loadTrayTimerId s)
    (overlayVisible s) (timeLabelVisible s) (timeLabelText s)
    (indicatorIcon s) (spawned s).

Definition set_lastError (v : option string) (s : ext) : ext :=
  mkExt
    (_bars s) (_recording s) (_startedAtMs s) (_level s) (_levelTarget s)
    (_lastTranscriptAtMs s) (_lastErrorAtMs s) v (_trayRecent s)
    (_hotkeys s) (_meterTimerId s) (_clockTimerId s) (_pollTimerId s)
    (_clickTimerId s) (_statusTimerId s) (_loadOverlayTimerId s)
    (_loadTrayTimerId s) (overlayVisible s) (timeLabelVisible s)
    (timeLabelText s) (indicatorIcon s) (spawned s).

Definition set_trayRecent (v : list value) (s : ext) : ext :=
  mkExt
    (_bars s) (_recording s) (_startedAtMs s) (_level s) (_levelTarget s)
    (_lastTranscriptAtMs s) (_lastErrorAtMs s) (_lastError s) v (_hotkeys s)
    (_meterTimerId s) (_clockTimerId s) (_pollTimerId s) (_clickTimerId s)
    (_statusTimerId s) (_loadOverlayTimerId s) (_loadTrayTimerId s)
    (overlayVisible s) (timeLabelVisible s) (timeLabelText s)
    (indicatorIcon s) (spawned s).

Definition set_hotkeys (v : value) (s : ext) : ext :=
  mkExt
    (_bars s) (_recording s) (_startedAtMs s) (_level s) (_levelTarget s)
    (_lastTranscriptAtMs s) (_lastErrorAtMs s) (_lastError s)
    (_trayRecent s) v (_meterTimerId s) (_clockTimerId s) (_pollTimerId s)
    (_clickTimerId s) (_statusTimerId s) (_loadOverlayTimerId s)
    (_loadTrayTimerId s) (overlayVisible s) (timeLabelVisible s)
    (timeLabelText s) (indicatorIcon s) (spawned s).

Definition set_meterTimerId (v : option Q) (s : ext) : ext :=
  mkExt
    (_bars s) (_recording s) (_startedAtMs s) (_level s) (_levelTarget s)
    (_lastTranscriptAtMs s) (_lastErrorAtMs s) (_lastError s)
    (_trayRecent s) (_hotkeys s) v (_clockTimerId s) (_pollTimerId s)
    (_clickTimerId s) (_statusTimerId s) (_loadOverlayTimerId s)
    (_loadTrayTimerId s) (overlayVisible s) (timeLabelVisible s)
    (timeLabelText s) (indicatorIcon s) (spawned s).

Definition set_clockTimerId (v : option Q) (s : ext) : ext :=
  mkExt
    (_bars s) (_recording s) (_startedAtMs s) (_level s) (_levelTarget s)
    (_lastTranscriptAtMs s) (_lastErrorAtMs s) (_lastError s)
    (_trayRecent s) (_hotkeys s) (_meterTimerId s) v (_pollTimerId s)
    (_clickTimerId s) (_statusTimerId s) (_loadOverlayTimerId s)
    (_loadTrayTimerId s) (overlayVisible s) (timeLabelVisible s)
    (timeLabelText s) (indicatorIcon s) (spawned s).

Definition set_pollTimerId (v : option Q) (s : ext) : ext :=
  mkExt
    (_bars s) (_recording s) (_startedAtMs s) (_level s) (_levelTarget s)
    (_lastTranscriptAtMs s) (_lastErrorAtMs s) (_lastError s)
    (_trayRecent s) (_hotkeys s) (_meterTimerId s) (_clockTimerId s) v
    (_clickTimerId s) (_statusTimerId s) (_loadOverlayTimerId s)
    (_loadTrayTimerId s) (overlayVisible s) (timeLabelVisible s)
    (timeLabelText s) (indicatorIcon s) (spawned s).

Definition set_clickTimerId (v : option Q) (s : ext) : ext :=
  mkExt
    (_bars s) (_recording s) (_startedAtMs s) (_level s) (_levelTarget s)
    (_lastTranscriptAtMs s) (_lastErrorAtMs s) (_lastError s)
    (_trayRecent s) (_hotkeys s) (_meterTimerId s) (_clockTimerId s)
    (_pollTimerId s) v (_statusTimerId s) (_loadOverlayTimerId s)
    (_loadTrayTimerId s) (overlayVisible s) (timeLabelVisible s)
    (timeLabelText s) (indicatorIcon s) (spawned s).

Definition set_statusTimerId (v : option Q) (s : ext) : ext :=
  mkExt
    (_bars s) (_recording s) (_startedAtMs s) (_level s) (_levelTarget s)
    (_lastTranscriptAtMs s) (_lastErrorAtMs s) (_lastError s)
    (_trayRecent s) (_hotkeys s) (_meterTimerId s) (_clockTimerId s)
    (_pollTimerId s) (_clickTimerId s) v (_loadOverlayTimerId s)
    (_loadTrayTimerId s) (overlayVisible s) (timeLabelVisible s)
    (timeLabelText s) (indicatorIcon s) (spawned s).

Definition set_loadOverlayTimerId (v : option Q) (s : ext) : ext :=
  mkExt
    (_bars s) (_recording s) (_startedAtMs s) (_level s) (_levelTarget s)
    (_lastTranscriptAtMs s) (_lastErrorAtMs s) (_lastError s)
    (_trayRecent s) (_hotkeys s) (_meterTimerId s) (_clockTimerId s)
    (_pollTimerId s) (_clickTimerId s) (_statusTimerId s) v
    (_loadTrayTimerId s) (overlayVisible s) (timeLabelVisible s)
    (timeLabelText s) (indicatorIcon s) (spawned s).

Definition set_loadTrayTimerId (v : option Q) (s : ext) : ext :=
  mkExt
    (_bars s) (_recording s) (_startedAtMs s) (_level s) (_levelTarget s)
    (_lastTranscriptAtMs s) (_lastErrorAtMs s) (_lastError s)
    (_trayRecent s) (_hotkeys s) (_meterTimerId s) (_clockTimerId s)
    (_pollTimerId s) (_clickTimerId s) (_statusTimerId s)
    (_loadOverlayTimerId s) v (overlayVisible s) (timeLabelVisible s)
    (timeLabelText s) (indicatorIcon s) (spawned s).

Definition set_overlayVisible (v : bool) (s : ext) : ext :=
  mkExt
    (_bars s) (_recording s) (_startedAtMs s) (_level s) (_levelTarget s)
    (_lastTranscriptAtMs s) (_lastErrorAtMs s) (_lastError s)
    (_trayRecent s) (_hotkeys s) (_meterTimerId s) (_clockTimerId s)
    (_pollTimerId s) (_clickTimerId s) (_statusTimerId s)
    (_loadOverlayTimerId s) (_loadTrayTimerId s) v (timeLabelVisible s)
    (timeLabelText s) (indicatorIcon s) (spawned s).

Definition set_timeLabelVisible (v : bool) (s : ext) : ext :=
  mkExt
    (_bars s) (_recording s) (_startedAtMs s) (_level s) (_levelTarget s)
    (_lastTranscriptAtMs s) (_lastErrorAtMs s) (_lastError s)
    (_trayRecent s) (_hotkeys s) (_meterTimerId s) (_clockTimerId s)
    (_pollTimerId s) (_clickTimerId s) (_statusTimerId s)
    (_loadOverlayTimerId s) (_loadTrayTimerId s) (overlayVisible s) v
    (timeLabelText s) (indicatorIcon s) (spawned s).

Definition set_timeLabelText (v : string) (s : ext) : ext :=
  mkExt
    (_bars s) (_recording s) (_startedAtMs s) (_level s) (_levelTarget s)
    (_lastTranscriptAtMs s) (_lastErrorAtMs s) (_lastError s)
    (_trayRecent s) (_hotkeys s) (_meterTimerId s) (_clockTimerId s)
    (_pollTimerId s) (_clickTimerId s) (_statusTimerId s)
    (_loadOverlayTimerId s) (_loadTrayTimerId s) (overlayVisible s)
    (timeLabelVisible s) v (indicatorIcon s) (spawned s).

Definition set_indicatorIcon (v : visual) (s : ext) : ext :=
  mkExt
    (_bars s) (_recording s) (_startedAtMs s) (_level s) (_levelTarget s)
    (_lastTranscriptAtMs s) (_lastErrorAtMs s) (_lastError s)
    (_trayRecent s) (_hotkeys s) (_meterTimerId s) (_clockTimerId s)
    (_pollTimerId s) (_clickTimerId s) (_statusTimerId s)
    (_loadOverlayTimerId s) (_loadTrayTimerId s) (overlayVisible s)
    (timeLabelVisible s) (timeLabelText s) v (spawned s).

Definition set_spawned (v : list flag) (s : ext) : ext :=
  mkExt
    (_bars s) (_recording s) (_startedAtMs s) (_level s) (_levelTarget s)
    (_lastTranscriptAtMs s) (_lastErrorAtMs s) (_lastError s)
    (_trayRecent s) (_hotkeys s) (_meterTimerId s) (_clockTimerId s)
    (_pollTimerId s) (_clickTimerId s) (_statusTimerId s)
    (_loadOverlayTimerId s) (_loadTrayTimerId s) (overlayVisible s)
    (timeLabelVisible s) (timeLabelText s) (indicatorIcon s) v.


(** The fields as [enable] initialises them, with the widgets as
    [_buildOverlay] and [_buildIndicator] create them ([BAR_COUNT] bars of
    the minimum height, the overlay hidden, the microphone icon). *)
Definition enabled : ext :=
  mkExt (repeat BAR_MIN_HEIGHT BAR_COUNT) false None 0 0 None None None [] (VObject [])
        None None None None None None None
        false true "0:00" Idle [].

(** ** Outbound actions *)

Definition _toggleRecording (st : ext) : ext :=
  set_spawned (Toggle :: spawned st) st.

Definition _openApp (st : ext) : ext :=
  set_spawned (Show :: spawned st) st.

(** ** PresentationStateMachine: the panel icon

    [this._indicatorIcon] exists from [enable] to [disable], so the guard
    that opens [_updateIndicator] never returns early. *)

Definition _clearStatusTimer (st : ext) : ext :=
  match _statusTimerId st with
  | Some _ => set_statusTimerId None st
  | None => st
  end.

(** The delay that [_scheduleStatusRefresh] computes ([null] is [None]). *)
Definition nextDelay (now : Q) (st : ext) : option Q :=
  if truthyNum (_lastErrorAtMs st) then
    match _lastErrorAtMs st with
    | Some e => Some (ERROR_FLASH_MS - (now - e))
    | None => None
    end
  else if truthyNum (_lastTranscriptAtMs st) then
    match _lastTranscriptAtMs st with
    | Some t => Some (SUCCESS_FLASH_MS - (now - t))
    | None => None
    end
  else None.

Definition _scheduleStatusRefresh (now : Q) (st : ext) : ext :=
  let st := _clearStatusTimer st in
  match nextDelay now st with
  | None => st
  | Some d =>
      if Qle_bool d 0 then st
      else set_statusTimerId (Some (now + d)) st
  end.

(** [ts && now - ts < window] *)
Definition flashing (now : Q) (ts : option Q) (window : Q) : bool :=
  match ts with
  | Some t => negb (Qiszero t) && Qltb (now - t) window
  | None => false
  end.

Definition _updateIndicator (now : Q) (st : ext) : ext :=
  if _recording st then set_indicatorIcon Recording st
  else if flashing now (_lastErrorAtMs st) ERROR_FLASH_MS then
    _scheduleStatusRefresh now (set_indicatorIcon ErrorFlash st)
  else if flashing now (_lastTranscriptAtMs st) SUCCESS_FLASH_MS then
    _scheduleStatusRefresh now (set_indicatorIcon SuccessFlash st)
  else _clearStatusTimer (set_indicatorIcon Idle st).

(** The callback of the status timer. *)
Definition statusTimeout (now : Q) (st : ext) : ext :=
  _updateIndicator now (set_statusTimerId None st).

(** ** LevelAnimator *)

Fixpoint forEachBar (clamped : Q) (index : nat) (bars : list Z) : list Z :=
  match bars with
  | [] => []
  | _ :: rest =>
      let weight := nth (index mod List.length BAR_WEIGHTS)%nat BAR_WEIGHTS 0 in
      let height :=
        Math_round (inject_Z BAR_MIN_HEIGHT
                    + inject_Z (BAR_MAX_HEIGHT - BAR_MIN_HEIGHT) * clamped * weight) in
      height :: forEachBar clamped (S index) rest
  end.

(** The smoothing step of one meter tick. *)
Definition smooth (target lvl : Q) : Q :=
  let delta := target - lvl in
  let smoothing := if Qltb 0 delta then 0.45 else 0.2 in
  lvl + delta * smoothing.

(** The callback of the meter timer; it returns [true], so the source
    stays installed and is due again one interval later. *)
Definition meterTimeout (now : Q) (st : ext) : ext :=
  let lvl := smooth (_levelTarget st) (_level st) in
  let clamped := Math_max 0 (Math_min 1 lvl) in
  set_meterTimerId (Some (now + METER_INTERVAL_MS))
    (set_bars (forEachBar clamped 0 (_bars st)) (set_level lvl st)).

Definition _startMeter (now : Q) (st : ext) : ext :=
  match _meterTimerId st with
  | Some _ => st
  | None => set_meterTimerId (Some (now + METER_INTERVAL_MS)) st
  end.

Definition _stopMeter (st : ext) : ext :=
  match _meterTimerId st with
  | Some _ => set_meterTimerId None st
  | None => st
  end.

(** ** The elapsed-time clock *)

Definition decimal (z : Z) : string := NilZero.string_of_int (Z.to_int z).

(** [s.padStart(2, '0')] *)
Definition padStart2 (s : string) : string :=
  match String.length s with
  | O => "00"
  | S O => "0" ++ s
  | _ => s
  end%string.

Definition _updateClock (now : Q) (st : ext) : ext :=
  match _startedAtMs st with
  | Some started =>
      if Qiszero started then st
      else
        let elapsedSec := Z.max 0 (Math_floor ((now - started) / 1000)) in
        let minutes := (elapsedSec / 60)%Z in
        let seconds := (elapsedSec mod 60)%Z in
        set_timeLabelText (decimal minutes ++ ":" ++ padStart2 (decimal seconds))%string st
  | None => st
  end.

Definition _startClock (now : Q) (st : ext) : ext :=
  if negb (truthyNum (_startedAtMs st)) then set_timeLabelText "" st
  else
    let st := _updateClock now st in
    match _clockTimerId st with
    | Some _ => st
    | None => set_clockTimerId (Some (now + CLOCK_INTERVAL_MS)) st
    end.

Definition _stopClock (st : ext) : ext :=
  match _clockTimerId st with
  | Some _ => set_clockTimerId None st
  | None => st
  end.

Definition clockTimeout (now : Q) (st : ext) : ext :=
  set_clockTimerId (Some (now + CLOCK_INTERVAL_MS)) (_updateClock now st).

(** ** Showing and hiding the overlay

    The calls to [_positionOverlay] and [_refreshMenu] that end
    [_showOverlay], [_hideOverlay] and precede [_updateIndicator] in
    [_loadTrayState] are outside the model. *)

Definition _showOverlay (now : Q) (startedAtMs : option Q) (st : ext) : ext :=
  let st := set_recording true st in
  let st := set_startedAtMs startedAtMs st in
  let st := set_timeLabelVisible (truthyNum startedAtMs) st in
  let st := set_overlayVisible true st in
  let st := _startMeter now st in
  let st := _startClock now st in
  _updateIndicator now st.

Definition _hideOverlay (now : Q) (st : ext) : ext :=
  let st := set_recording false st in
  let st := set_startedAtMs None st in
  let st := set_timeLabelVisible false st in
  let st := set_level 0 st in
  let st := set_levelTarget 0 st in
  let st := set_overlayVisible false st in
  let st := _stopMeter st in
  let st := _stopClock st in
  _updateIndicator now st.

Definition _loadOverlayState (now : Q) (doc : document) (st : ext) : ext :=
  let rs := overlayLocals now doc in
  let st := set_levelTarget (level rs) st in
  if recording rs then _showOverlay now (startedAtMs rs) st
  else _hideOverlay now st.

Definition _loadTrayState (now : Q) (doc : document) (st : ext) : ext :=
  let ts := trayLocals doc in
  let st := set_trayRecent (trayRecent ts) st in
  let st := set_lastTranscriptAtMs (lastTranscriptAtMs ts) st in
  let st := set_lastErrorAtMs (lastErrorAtMs ts) st in
  let st := set_lastError (lastError ts) st in
  let st := set_hotkeys (hotkeys ts) st in
  _updateIndicator now st.

(** ** ChangeWatcher *)

Definition _scheduleLoadOverlay (now : Q) (st : ext) : ext :=
  match _loadOverlayTimerId st with
  | Some _ => st
  | None => set_loadOverlayTimerId (Some (now + LOAD_OVERLAY_DELAY_MS)) st
  end.

Definition _scheduleLoadTray (now : Q) (st : ext) : ext :=
  match _loadTrayTimerId st with
  | Some _ => st
  | None => set_loadTrayTimerId (Some (now + LOAD_TRAY_DELAY_MS)) st
  end.

Definition loadOverlayTimeout (now : Q) (doc : document) (st : ext) : ext :=
  _loadOverlayState now doc (set_loadOverlayTimerId None st).

Definition loadTrayTimeout (now : Q) (doc : document) (st : ext) : ext :=
  _loadTrayState now doc (set_loadTrayTimerId None st).

(** The base names that the handler of the monitor's [changed] signal
    collects from its [file] and [otherFile] arguments. *)
Definition basenames (file otherFile : option string) : list string :=
  (match file with Some f => [f] | None => [] end)
  ++ (match otherFile with Some f => [f] | None => [] end).

Definition refersTo (final tmp : string) (names : list string) : bool :=
  existsb (fun name => (name =? final)%string || (name =? tmp)%string) names.

(** The handler that [_watchState] connects to the [changed] signal. *)
Definition changed (now : Q) (file otherFile : option string) (st : ext) : ext :=
  let names := basenames file otherFile in
  let st := if refersTo STATE_FILE STATE_TMP_FILE names
            then _scheduleLoadOverlay now st else st in
  if refersTo TRAY_FILE TRAY_TMP_FILE names
  then _scheduleLoadTray now st else st.

(** The callback of the polling fallback of [_watchState]. *)
Definition pollTimeout (now : Q) (overlayDoc trayDoc : document) (st : ext) : ext :=
  set_pollTimerId (Some (now + POLL_INTERVAL_MS))
    (_loadTrayState now trayDoc (_loadOverlayState now overlayDoc st)).

(** ** ClickDisambiguator *)

Definition _clearClickTimer (st : ext) : ext :=
  match _clickTimerId st with
  | Some _ => set_clickTimerId None st
  | None => st
  end.

Definition _handlePrimaryClick (now : Q) (st : ext) : ext :=
  match _clickTimerId st with
  | Some _ => _openApp (_clearClickTimer st)
  | None => set_clickTimerId (Some (now + DOUBLE_CLICK_MS)) st
  end.

Definition clickTimeout (st : ext) : ext :=
  _toggleRecording (set_clickTimerId None st).

(** ** The main loop

    Everything runs on one event loop.  A schedule lists, in the order of
    their dispatch, the signals delivered to the extension and the timeout
    callbacks that the loop runs, each with the time of its dispatch.  The
    loop runs the callback of a timeout source only while the source is
    installed and not before it is due; a load callback comes with what the
    state file holds at that moment. *)
Inductive occurrence :=
| Changed (file otherFile : option string)
| PrimaryPress
| LoadOverlayTimeout (doc : document)
| LoadTrayTimeout (doc : document)
| MeterTimeout
| ClockTimeout
| ClickTimeout
| StatusTimeout
| PollTimeout (overlayDoc trayDoc : document).

Definition isDue (now : Q) (timer : option Q) : bool :=
  match timer with
  | Some due => Qle_bool due now
  | None => false
  end.

(** One dispatch; [None] when the loop cannot dispatch this occurrence in
    this state. *)
Definition dispatch (now : Q) (o : occurrence) (st : ext) : option ext :=
  match o with
  | Changed file otherFile => Some (changed now file otherFile st)
  | PrimaryPress => Some (_handlePrimaryClick now st)
  | LoadOverlayTimeout doc =>
      if isDue now (_loadOverlayTimerId st)
      then Some (loadOverlayTimeout now doc st) else None
  | LoadTrayTimeout doc =>
      if isDue now (_loadTrayTimerId st)
      then Some (loadTrayTimeout now doc st) else None
  | MeterTimeout =>
      if isDue now (_meterTimerId st) then Some (meterTimeout now st) else None
  | ClockTimeout =>
      if isDue now (_clockTimerId st) then Some (clockTimeout now st) else None
  | ClickTimeout =>
      if isDue now (_clickTimerId st) then Some (clickTimeout st) else None
  | StatusTimeout =>
      if isDue now (_statusTimerId st) then Some (statusTimeout now st) else None
  | PollTimeout overlayDoc trayDoc =>
      if isDue now (_pollTimerId st)
      then Some (pollTimeout now overlayDoc trayDoc st) else None
  end.

(** Running a schedule from the time [clock]; time never goes back. *)
Fixpoint run (clock : Q) (schedule : list (Q * occurrence)) (st : ext) : option ext :=
  match schedule with
  | [] => Some st
  | (t, o) :: rest =>
      if Qle_bool clock t then
        match dispatch t o st with
        | Some st' => run t rest st'
        | None => None
        end
      else None
  end.

(** ** Lifecycle: [enable], [_watchState], [disable]

    The record [ext] holds the fields that the loads, the timers and the
    click handler use.  What [enable] and [disable] add to them is kept
    beside it: whether [this._monitor] is a connected directory monitor
    and whether the panel button [this._indicator] exists. *)
Record extension := mkExtension {
  fields : ext;
  _monitor : bool;
  _indicator : bool
}.

(** [_watchState]: [monitorThrows] tells whether [monitor_directory]
    (or connecting to its signal) raises; the [catch] then installs the
    polling timer. *)
Definition _watchState (monitorThrows : bool) (now : Q) (e : extension) : extension :=
  if monitorThrows
  then mkExtension (set_pollTimerId (Some (now + POLL_INTERVAL_MS)) (fields e))
                   false (_indicator e)
  else mkExtension (fields e) true (_indicator e).

(** [enable], given what the two state files hold when it runs. *)
Definition enable (monitorThrows : bool) (now : Q) (overlayDoc trayDoc : document)
  : extension :=
  let e := mkExtension enabled false true in
  let e := _watchState monitorThrows now e in
  let st := _loadOverlayState now overlayDoc (fields e) in
  let st := _loadTrayState now trayDoc st in
  mkExtension st (_monitor e) (_indicator e).

Definition _clearLoadTimers (st : ext) : ext :=
  let st := match _loadOverlayTimerId st with
            | Some _ => set_loadOverlayTimerId None st
            | None => st
            end in
  match _loadTrayTimerId st with
  | Some _ => set_loadTrayTimerId None st
  | None => st
  end.

(** [disable]: the timers are removed, the monitor is cancelled, and the
    overlay and the panel button are destroyed. *)
Definition disable (e : extension) : extension :=
  let st := _stopMeter (fields e) in
  let st := _stopClock st in
  let st := _clearClickTimer st in
  let st := _clearStatusTimer st in
  let st := _clearLoadTimers st in
  let st := match _pollTimerId st with
            | Some _ => set_pollTimerId None st
            | None => st
            end in
  let st := set_overlayVisible false st in
  mkExtension st false false.

(** ** The panel button

    The handler of [button-press-event] that [_buildIndicator] connects;
    the button was created with a menu. *)
Inductive button :=
| BUTTON_PRIMARY
| BUTTON_SECONDARY
| BUTTON_OTHER.

Inductive propagation :=
| EVENT_STOP
| EVENT_PROPAGATE.

(** What the handler asks of the menu of the button. *)
Inductive menuCall :=
| MenuClose
| MenuToggle
| MenuUntouched.

Definition buttonPress (now : Q) (buttonId : button) (st : ext)
  : ext * menuCall * propagation :=
  match buttonId with
  | BUTTON_PRIMARY => (_handlePrimaryClick now st, MenuClose, EVENT_STOP)
  | BUTTON_SECONDARY => (st, MenuToggle, EVENT_STOP)
  | BUTTON_OTHER => (st, MenuUntouched, EVENT_PROPAGATE)
  end.

(** What can reach the extension: a [changed] signal needs the monitor, a
    press needs the panel button, a timeout callback needs its source. *)
Definition deliver (now : Q) (o : occurrence) (e : extension) : option extension :=
  match o with
  | Changed _ _ =>
      if _monitor e
      then st <- dispatch now o (fields e) ;;
           Some (mkExtension st (_monitor e) (_indicator e))
      else None
  | PrimaryPress =>
      if _indicator e
      then Some (mkExtension (fst (fst (buttonPress now BUTTON_PRIMARY (fields e))))
                             (_monitor e) (_indicator e))
      else None
  | _ =>
      st <- dispatch now o (fields e) ;;
      Some (mkExtension st (_monitor e) (_indicator e))
  end.

(** ** The Recent submenu and the clipboard

    The part of [_refreshMenu] that rebuilds the submenu of recent
    transcripts, and [_copyTranscript]. *)
Inductive menuEntry :=
| Plain (label : string)
| CopyTranscript (label : string) (item : value)
| Separator
| ShowAll (label : string).

Definition nonEmpty (s : string) : bool := negb (s =? "")%string.

(** The label computed for one entry of [this._trayRecent]; [None] when
    reading [item.preview] raises. *)
Definition itemLabel (item : value) : option string :=
  p <- prop item "preview" ;;
  match isString p with
  | Some s =>
      if nonEmpty s then Some s
      else
        t <- prop item "text" ;;
        let preview := match isString t with Some s' => s' | None => ""%string end in
        Some (if nonEmpty preview then preview else "Untitled transcript"%string)
  | None =>
      t <- prop item "text" ;;
      let preview := match isString t with Some s' => s' | None => ""%string end in
      Some (if nonEmpty preview then preview else "Untitled transcript"%string)
  end.

Fixpoint forEachRecent (recent : list value) : option (list menuEntry) :=
  match recent with
  | [] => Some []
  | item :: rest =>
      label <- itemLabel item ;;
      entries <- forEachRecent rest ;;
      Some (CopyTranscript label item :: entries)
  end.

Definition recentMenuItems (recent : list value) : option (list menuEntry) :=
  match recent with
  | [] => Some [Plain "No recent transcripts"]
  | _ =>
      entries <- forEachRecent recent ;;
      Some (entries ++ [Separator; ShowAll "Show All Transcripts"])
  end.

(** [_copyTranscript]: the texts put on the clipboard so far, latest
    first; [None] when reading [item.text] raises. *)
Definition _copyTranscript (item : value) (clipboard : list string)
  : option (list string) :=
  t <- prop item "text" ;;
  let text := match isString t with Some s => s | None => ""%string end in
  if nonEmpty text then Some (text :: clipboard) else Some clipboard.

(** ** The command to spawn

    [trim] stands for [String.prototype.trim]; [env] is what
    [GLib.getenv('WHISPR_BIN')] returns and [config] what reading the
    configuration file yields. *)
Definition DEFAULT_COMMAND : string := "whispr".

Definition _readConfigCommand (trim : string -> string) (config : document)
  : option string :=
  match config with
  | ReadThrows => None
  | ReadNotOk => None
  | ParseThrows => None
  | Parsed data =>
      match prop data "binary" with
      | None => None
      | Some b =>
          match isString b with
          | Some s => if (0 <? String.length (trim s))%nat then Some (trim s) else None
          | None => None
          end
      end
  end.

Definition _resolveCommand (trim : string -> string)
           (env : option string) (config : document) : string :=
  let fromConfig :=
    match _readConfigCommand trim config with
    | Some c => if nonEmpty c then c else DEFAULT_COMMAND
    | None => DEFAULT_COMMAND
    end in
  match env with
  | Some envCommand =>
      if nonEmpty envCommand && (0 <? String.length (trim envCommand))%nat
      then trim envCommand
      else fromConfig
  | None => fromConfig
  end.

(** ** Placing the overlay

    [monitor] is the primary monitor ([x], [y], [width], [height]) when
    there is one; the overlay reports its natural width and height. *)
Record geometry := mkGeometry {
  geo_x : Q;
  geo_y : Q;
  geo_width : Q;
  geo_height : Q
}.

Definition MARGIN_BOTTOM : Q := 32.

Definition _positionOverlay (monitor : option geometry)
           (naturalWidth naturalHeight : Q) (position : Z * Z) : Z * Z :=
  match monitor with
  | None => position
  | Some m =>
      let x := Math_round (geo_x m + (geo_width m - naturalWidth) / 2) in
      let y := Math_round (geo_y m + geo_height m - naturalHeight - MARGIN_BOTTOM) in
      (x, y)
  end.

(** ** Vocabulary of the properties *)

Definition schedule := list (Q * occurrence).

(** A [changed] signal that names the recording document, by its final
    name or by the name of its temporary file. *)
Definition overlayNotification (o : occurrence) : bool :=
  match o with
  | Changed file otherFile => refersTo STATE_FILE STATE_TMP_FILE (basenames file otherFile)
  | _ => false
  end.

(** A [changed] signal that names the tray document. *)
Definition trayNotification (o : occurrence) : bool :=
  match o with
  | Changed file otherFile => refersTo TRAY_FILE TRAY_TMP_FILE (basenames file otherFile)
  | _ => false
  end.

Definition isOverlayReload (o : occurrence) : bool :=
  match o with LoadOverlayTimeout _ => true | _ => false end.

Definition isTrayReload (o : occurrence) : bool :=
  match o with LoadTrayTimeout _ => true | _ => false end.

Definition isPress (o : occurrence) : bool :=
  match o with PrimaryPress => true | _ => false end.

Definition isClickTimeout (o : occurrence) : bool :=
  match o with ClickTimeout => true | _ => false end.

(** How many occurrences of a schedule satisfy [p]. *)
Definition count (p : occurrence -> bool) (s : schedule) : nat :=
  List.length (filter (fun e => p (snd e)) s).

(** Every occurrence of [s] that satisfies [p] is dispatched at a time
    that satisfies [when]. *)
Definition each (p : occurrence -> bool) (when : Q -> Prop) (s : schedule) : Prop :=
  Forall (fun e => p (snd e) = true -> when (fst e)) s.

(** The time of the last dispatch of a schedule started at [clock]. *)
Fixpoint endTime (clock : Q) (s : schedule) : Q :=
  match s with
  | [] => clock
  | (t, _) :: rest => endTime t rest
  end.

(** The fields of the change watcher and of the click disambiguator
    agree in two states. *)
Definition sameInputs (a b : ext) : Prop :=
  _loadOverlayTimerId a = _loadOverlayTimerId b
  /\ _loadTrayTimerId a = _loadTrayTimerId b
  /\ _clickTimerId a = _clickTimerId b
  /\ spawned a = spawned b.

(** The timestamp [ts] is present and less than [window] old. *)
Definition withinWindow (now : Q) (ts : option Q) (window : Q) : Prop :=
  exists t, ts = Some t /\ now - t < window.

(** [n] consecutive meter ticks, the first at [now]. *)
Fixpoint meterTicks (n : nat) (now : Q) (st : ext) : ext :=
  match n with
  | O => st
  | S k => meterTicks k (now + METER_INTERVAL_MS) (meterTimeout now st)
  end.

(** How far the smoothed level is from the target. *)
Definition distance (target lvl : Q) : Q := Qabs (lvl - target).

(** [q] to the power [n]. *)
Fixpoint power (q : Q) (n : nat) : Q :=
  match n with
  | O => 1
  | S k => q * power q k
  end.

Definition isSome {A : Type} (x : option A) : bool :=
  match x with
  | Some _ => true
  | None => false
  end.

(** A bar height within the limits. *)
Definition heightOk (h : Z) : Prop := (BAR_MIN_HEIGHT <= h <= BAR_MAX_HEIGHT)%Z.

(** How the fields of the overlay, of the meter and of the clock hang
    together. *)
Definition coherent (st : ext) : Prop :=
  overlayVisible st = _recording st
  /\ isSome (_meterTimerId st) = _recording st
  /\ (isSome (_clockTimerId st) = true -> _recording st = true)
  /\ timeLabelVisible st = truthyNum (_startedAtMs st)
  /\ (_recording st = false ->
      _startedAtMs st = None /\ _level st = 0 /\ _levelTarget st = 0)
  /\ 0 <= _level st <= 1
  /\ 0 <= _levelTarget st <= 1
  /\ List.length (_bars st) = BAR_COUNT
  /\ Forall heightOk (_bars st).

(** [coherent], and the panel icon shows recording exactly while
    recording. *)
Definition consistent (st : ext) : Prop :=
  coherent st
  /\ (indicatorIcon st = Recording <-> _recording st = true).

(** The fields that [coherent] reads agree in two states. *)
Definition sameOverlay (a b : ext) : Prop :=
  overlayVisible a = overlayVisible b
  /\ _recording a = _recording b
  /\ _meterTimerId a = _meterTimerId b
  /\ _clockTimerId a = _clockTimerId b
  /\ timeLabelVisible a = timeLabelVisible b
  /\ _startedAtMs a = _startedAtMs b
  /\ _level a = _level b
  /\ _levelTarget a = _levelTarget b
  /\ _bars a = _bars b.

(** A series of presses of the panel button, each with its time. *)
Fixpoint presses (bs : list (Q * button)) (st : ext) : ext :=
  match bs with
  | [] => st
  | (t, b) :: rest => presses rest (fst (fst (buttonPress t b st)))
  end.

(** A timeout callback, as opposed to a signal. *)
Definition isTimeout (o : occurrence) : bool :=
  match o with
  | Changed _ _ | PrimaryPress => false
  | _ => true
  end.

(** * Properties *)

(** ** The model on the scenarios of the specification *)

Example tmp_file_names :
  STATE_TMP_FILE = "overlay.tmp"%string /\ TRAY_TMP_FILE = "tray.tmp"%string.
Proof. split; reflexivity. Qed.

(** [{recording:true, started_at_ms: now-65000}] shows the clock at 1:05. *)
Example clock_label_after_65_seconds :
  let now : Q := 1700000000000 in
  let doc :=
    Parsed (VObject [("recording"%string, VBool true);
                     ("started_at_ms"%string, VNumber (Finite 1699999935000));
                     ("updated_at_ms"%string, VNumber (Finite 1700000000000))]) in
  timeLabelText (_loadOverlayState now doc enabled) = "1:05"%string
  /\ timeLabelVisible (_loadOverlayState now doc enabled) = true.
Proof. cbv zeta. split; reflexivity. Qed.

(** [{recording:false, last_error_at_ms: now-1000}] shows the error
    flash, and when its timer fires 3000 ms later the icon is idle. *)
Example error_flash_then_idle :
  let now : Q := 1700000000000 in
  let doc :=
    Parsed (VObject [("last_error_at_ms"%string, VNumber (Finite 1699999999000))]) in
  let st := _loadTrayState now doc enabled in
  indicatorIcon st = ErrorFlash
  /\ (exists due, _statusTimerId st = Some due /\ due == now + 3000)
  /\ (exists st', run now [(now + 3000, StatusTimeout)] st = Some st'
                  /\ indicatorIcon st' = Idle /\ _statusTimerId st' = None).
Proof.
  cbv zeta. split; [reflexivity|]. split.
  - eexists. split; reflexivity.
  - eexists. split; [vm_compute; reflexivity|]. split; reflexivity.
Qed.

(** ** Numbers *)

Lemma Qle_bool_spec (a b : Q) : BoolSpec (a <= b) (b < a) (Qle_bool a b).
Proof.
  destruct (Qle_bool a b) eqn:E; constructor.
  - now apply Qle_bool_iff.
  - apply Qnot_le_lt. intro H. apply Qle_bool_iff in H. congruence.
Qed.

Lemma Qltb_spec (a b : Q) : BoolSpec (a < b) (b <= a) (Qltb a b).
Proof.
  unfold Qltb. destruct (Qle_bool_spec b a); constructor; assumption.
Qed.

Lemma Qiszero_spec (a : Q) : BoolSpec (a == 0) (~ a == 0) (Qiszero a).
Proof.
  unfold Qiszero. destruct (Qeq_bool a 0) eqn:E; constructor.
  - now apply Qeq_bool_iff.
  - intro H. apply Qeq_bool_iff in H. congruence.
Qed.

Lemma clamp_bounds (x : Q) : 0 <= Math_max 0 (Math_min 1 x) <= 1.
Proof.
  unfold Math_max, Math_min.
  destruct (Qle_bool_spec 1 x);
    match goal with |- context [Qle_bool ?a ?b] => destruct (Qle_bool_spec a b) end;
    lra.
Qed.

Lemma Math_round_bounds (lo hi : Z) (x : Q) :
  inject_Z lo <= x -> x <= inject_Z hi -> (lo <= Math_round x <= hi)%Z.
Proof.
  intros Hlo Hhi. unfold Math_round. split.
  - rewrite <- (Qfloor_Z lo). apply Qfloor_resp_le. lra.
  - assert (H : (Qfloor (x + (1 # 2)) < hi + 1)%Z); [|lia].
    rewrite Zlt_Qlt. eapply Qle_lt_trans; [apply Qfloor_le|].
    rewrite inject_Z_plus. change (inject_Z 1) with 1. lra.
Qed.

(** ** LevelAnimator: bar heights *)

Lemma BAR_WEIGHTS_bounds : Forall (fun w => 0 < w <= 1) BAR_WEIGHTS.
Proof.
  unfold BAR_WEIGHTS. repeat constructor; try lra.
Qed.

Lemma weight_bounds (index : nat) :
  0 < nth (index mod List.length BAR_WEIGHTS)%nat BAR_WEIGHTS 0 <= 1.
Proof.
  pose proof BAR_WEIGHTS_bounds as H.
  rewrite Forall_forall in H. apply H. apply nth_In.
  apply Nat.mod_upper_bound. discriminate.
Qed.

Lemma height_bounds (clamped weight : Q) :
  0 <= clamped <= 1 -> 0 < weight <= 1 ->
  (BAR_MIN_HEIGHT
   <= Math_round (inject_Z BAR_MIN_HEIGHT
                  + inject_Z (BAR_MAX_HEIGHT - BAR_MIN_HEIGHT) * clamped * weight)
   <= BAR_MAX_HEIGHT)%Z.
Proof.
  intros Hc Hw. apply Math_round_bounds.
  - change (inject_Z BAR_MIN_HEIGHT) with 10.
    change (inject_Z (BAR_MAX_HEIGHT - BAR_MIN_HEIGHT)) with 16.
    assert (0 <= clamped * weight) by (apply Qmult_le_0_compat; lra).
    lra.
  - change (inject_Z BAR_MIN_HEIGHT) with 10.
    change (inject_Z (BAR_MAX_HEIGHT - BAR_MIN_HEIGHT)) with 16.
    change (inject_Z BAR_MAX_HEIGHT) with 26.
    assert (clamped * weight <= 1 * 1) by (apply Qmult_le_compat_nonneg; lra).
    lra.
Qed.

Lemma forEachBar_bounds (clamped : Q) (bars : list Z) :
  0 <= clamped <= 1 ->
  forall index,
    Forall (fun h => (BAR_MIN_HEIGHT <= h <= BAR_MAX_HEIGHT)%Z)
           (forEachBar clamped index bars).
Proof.
  intros Hc. induction bars as [|b rest IH]; intros index; cbn [forEachBar].
  - constructor.
  - constructor; [|apply IH].
    apply height_bounds; [assumption | apply weight_bounds].
Qed.

Lemma forEachBar_length (clamped : Q) (bars : list Z) :
  forall index, List.length (forEachBar clamped index bars) = List.length bars.
Proof.
  induction bars as [|b rest IH]; intros index; cbn [forEachBar List.length]; auto.
Qed.

(** C10. On every meter tick, whatever the smoothed level and the target
    level were, the level used for the bars is clamped to [0,1], every
    bar weight is at most 1, and so every bar height that the tick sets
    lies between [BAR_MIN_HEIGHT] (10) and [BAR_MAX_HEIGHT] (26)
    inclusive; the tick keeps the number of bars. *)
Theorem C10_bar_heights_within_bounds :
  forall (now : Q) (st : ext),
    Forall (fun h => (BAR_MIN_HEIGHT <= h <= BAR_MAX_HEIGHT)%Z)
           (_bars (meterTimeout now st))
    /\ List.length (_bars (meterTimeout now st)) = List.length (_bars st)
    /\ Forall (fun w => 0 < w <= 1) BAR_WEIGHTS
    /\ BAR_MIN_HEIGHT = 10%Z /\ BAR_MAX_HEIGHT = 26%Z.
Proof.
  intros now st. cbn [meterTimeout set_meterTimerId set_bars _bars].
  repeat split.
  - apply forEachBar_bounds. apply clamp_bounds.
  - apply forEachBar_length.
  - apply BAR_WEIGHTS_bounds.
Qed.

(** ** LevelAnimator: smoothing *)

Lemma smooth_rising (target lvl : Q) :
  lvl < target -> smooth target lvl = lvl + (target - lvl) * 0.45.
Proof.
  intros H. unfold smooth. destruct (Qltb_spec 0 (target - lvl)); [reflexivity | lra].
Qed.

Lemma smooth_falling (target lvl : Q) :
  target <= lvl -> smooth target lvl = lvl + (target - lvl) * 0.2.
Proof.
  intros H. unfold smooth. destruct (Qltb_spec 0 (target - lvl)); [lra | reflexivity].
Qed.

Lemma distance_below (target lvl : Q) :
  lvl <= target -> distance target lvl == target - lvl.
Proof.
  intros H. unfold distance. rewrite Qabs_neg by lra. ring.
Qed.

Lemma distance_above (target lvl : Q) :
  target <= lvl -> distance target lvl == lvl - target.
Proof.
  intros H. unfold distance. rewrite Qabs_pos by lra. ring.
Qed.

Lemma distance_nonneg (target lvl : Q) : 0 <= distance target lvl.
Proof. apply Qabs_nonneg. Qed.

Lemma smooth_contracts (target lvl : Q) :
  distance target (smooth target lvl) <= 0.8 * distance target lvl.
Proof.
  destruct (Qlt_le_dec lvl target) as [H|H].
  - rewrite (smooth_rising _ _ H).
    rewrite !distance_below by lra. lra.
  - rewrite (smooth_falling _ _ H).
    rewrite !distance_above by lra. lra.
Qed.

Lemma smooth_strict (target lvl : Q) :
  ~ lvl == target ->
  distance target (smooth target lvl) < distance target lvl.
Proof.
  intros Hne. destruct (Qlt_le_dec lvl target) as [H|H].
  - rewrite (smooth_rising _ _ H).
    rewrite !distance_below by lra. lra.
  - assert (target < lvl).
    { apply Qle_lteq in H. destruct H as [H|H]; [assumption|]. symmetry in H. contradiction. }
    rewrite (smooth_falling _ _ H).
    rewrite !distance_above by lra. lra.
Qed.

Lemma meterTimeout_level (now : Q) (st : ext) :
  _level (meterTimeout now st) = smooth (_levelTarget st) (_level st)
  /\ _levelTarget (meterTimeout now st) = _levelTarget st.
Proof. split; reflexivity. Qed.

Lemma power_nonneg (q : Q) (n : nat) : 0 <= q -> 0 <= power q n.
Proof.
  intros Hq. induction n as [|n IH]; cbn [power]; [lra|].
  apply Qmult_le_0_compat; assumption.
Qed.

Lemma meterTicks_distance (n : nat) :
  forall (now : Q) (st : ext),
    distance (_levelTarget st) (_level (meterTicks n now st))
    <= power 0.8 n * distance (_levelTarget st) (_level st).
Proof.
  induction n as [|n IH]; intros now st; cbn [meterTicks power].
  - lra.
  - specialize (IH (now + METER_INTERVAL_MS) (meterTimeout now st)).
    destruct (meterTimeout_level now st) as [Hl Ht].
    rewrite Ht, Hl in IH.
    pose proof (smooth_contracts (_levelTarget st) (_level st)) as Hc.
    pose proof (power_nonneg 0.8 n ltac:(lra)) as Hp.
    eapply Qle_trans; [exact IH|].
    setoid_replace (0.8 * power 0.8 n * distance (_levelTarget st) (_level st))
      with (0.8 * distance (_levelTarget st) (_level st) * power 0.8 n) by ring.
    rewrite (Qmult_comm (power 0.8 n)).
    apply Qmult_le_compat_r; assumption.
Qed.

(** The decay factor is dominated by [4 / (4 + n)]. *)
Lemma power_decay (n : nat) :
  (4 + inject_Z (Z.of_nat n)) * power 0.8 n <= 4.
Proof.
  induction n as [|n IH]; cbn [power].
  - change (inject_Z (Z.of_nat 0)) with 0. lra.
  - rewrite Nat2Z.inj_succ, <- Z.add_1_r, inject_Z_plus.
    change (inject_Z 1) with 1.
    pose proof (power_nonneg 0.8 n ltac:(lra)) as Hp.
    assert (Ha : 0 <= inject_Z (Z.of_nat n)).
    { change 0 with (inject_Z 0). rewrite <- Zle_Qle. lia. }
    assert (Hm : 0 <= inject_Z (Z.of_nat n) * power 0.8 n)
      by (apply Qmult_le_0_compat; assumption).
    lra.
Qed.

Lemma power_vanishes (D eps : Q) :
  0 <= D -> 0 < eps ->
  exists N : nat, forall n, (N <= n)%nat -> power 0.8 n * D < eps.
Proof.
  intros HD Heps.
  exists (Z.to_nat (Qceiling (4 * D / eps))).
  intros n Hn.
  set (a := inject_Z (Z.of_nat n)).
  assert (Ha : 4 * D / eps <= a).
  { eapply Qle_trans; [apply Qle_ceiling|]. unfold a. rewrite <- Zle_Qle. lia. }
  assert (Ha0 : 0 <= a).
  { unfold a. change 0 with (inject_Z 0). rewrite <- Zle_Qle. lia. }
  assert (Hbig : 4 * D <= a * eps).
  { setoid_replace (4 * D) with (4 * D / eps * eps) by (field; lra).
    apply Qmult_le_compat_r; lra. }
  pose proof (power_decay n) as Hdec. fold a in Hdec.
  pose proof (power_nonneg 0.8 n ltac:(lra)) as Hp.
  apply Qmult_lt_r with (z := 4 + a); [lra|].
  apply Qle_lt_trans with (y := 4 * D); [|lra].
  setoid_replace (power 0.8 n * D * (4 + a)) with (((4 + a) * power 0.8 n) * D) by ring.
  apply Qmult_le_compat_r; assumption.
Qed.



(** ** PresentationStateMachine *)

Lemma set_statusTimerId_same (st : ext) :
  set_statusTimerId (_statusTimerId st) st = st.
Proof. destruct st; reflexivity. Qed.

Lemma _clearStatusTimer_eq (st : ext) :
  _clearStatusTimer st = set_statusTimerId None st.
Proof.
  unfold _clearStatusTimer. destruct (_statusTimerId st) eqn:E; [reflexivity|].
  rewrite <- E. symmetry. apply set_statusTimerId_same.
Qed.

(** [_updateIndicator] only writes the icon and the status timer. *)
Lemma _updateIndicator_shape (now : Q) (st : ext) :
  exists icon timer,
    _updateIndicator now st = set_statusTimerId timer (set_indicatorIcon icon st).
Proof.
  unfold _updateIndicator, _scheduleStatusRefresh.
  destruct (_recording st).
  - exists Recording, (_statusTimerId st).
    now rewrite <- (set_statusTimerId_same (set_indicatorIcon Recording st)) at 1.
  - repeat match goal with
           | |- context [if ?b then _ else _] => destruct b
           | |- context [match nextDelay ?n ?s with _ => _ end] => destruct (nextDelay n s)
           end;
      rewrite ?_clearStatusTimer_eq; eexists; eexists; destruct st; reflexivity.
Qed.

Lemma flashing_iff (now window : Q) (ts : option Q) :
  window <= now ->
  flashing now ts window = true <-> withinWindow now ts window.
Proof.
  intros Hnow. unfold flashing, withinWindow. destruct ts as [t|].
  - destruct (Qiszero_spec t) as [Hz|Hz]; cbn [negb andb];
      destruct (Qltb_spec (now - t) window) as [Hl|Hl]; split; intros H;
      try discriminate; try reflexivity.
    + destruct H as (t' & Ht & Hlt). injection Ht as <-. lra.
    + destruct H as (t' & Ht & Hlt). injection Ht as <-. lra.
    + exists t. split; [reflexivity | assumption].
    + destruct H as (t' & Ht & Hlt). injection Ht as <-. lra.
  - split; [discriminate|]. intros (t & Ht & _). discriminate.
Qed.

Lemma _scheduleStatusRefresh_icon (now : Q) (st : ext) :
  indicatorIcon (_scheduleStatusRefresh now st) = indicatorIcon st.
Proof.
  unfold _scheduleStatusRefresh. rewrite _clearStatusTimer_eq.
  destruct (nextDelay now _); [destruct (Qle_bool q 0)|]; reflexivity.
Qed.

(** C6. Whenever the panel icon is recomputed (the wall clock being past
    the first four seconds of the epoch), the state shown follows the
    precedence recording > error flash > success flash > idle: recording
    always wins; otherwise the error flash is shown when [lastErrorAtMs]
    is within the error window, whatever [lastTranscriptAtMs] is;
    otherwise the success flash when [lastTranscriptAtMs] is within the
    success window; otherwise the idle icon. *)
Theorem C6_indicator_precedence :
  forall (now : Q) (st : ext),
    ERROR_FLASH_MS <= now ->
    (_recording st = true ->
     indicatorIcon (_updateIndicator now st) = Recording)
    /\ (_recording st = false ->
        withinWindow now (_lastErrorAtMs st) ERROR_FLASH_MS ->
        indicatorIcon (_updateIndicator now st) = ErrorFlash)
    /\ (_recording st = false ->
        ~ withinWindow now (_lastErrorAtMs st) ERROR_FLASH_MS ->
        withinWindow now (_lastTranscriptAtMs st) SUCCESS_FLASH_MS ->
        indicatorIcon (_updateIndicator now st) = SuccessFlash)
    /\ (_recording st = false ->
        ~ withinWindow now (_lastErrorAtMs st) ERROR_FLASH_MS ->
        ~ withinWindow now (_lastTranscriptAtMs st) SUCCESS_FLASH_MS ->
        indicatorIcon (_updateIndicator now st) = Idle).
Proof.
  intros now st Hnow.
  assert (Hs : SUCCESS_FLASH_MS <= now) by (unfold SUCCESS_FLASH_MS, ERROR_FLASH_MS in *; lra).
  pose proof (flashing_iff now ERROR_FLASH_MS (_lastErrorAtMs st) Hnow) as He.
  pose proof (flashing_iff now SUCCESS_FLASH_MS (_lastTranscriptAtMs st) Hs) as Ht.
  unfold _updateIndicator.
  repeat split; intros Hr; rewrite Hr.
  - reflexivity.
  - intros Hw. apply He in Hw. rewrite Hw.
    now rewrite _scheduleStatusRefresh_icon.
  - intros Hne Hw.
    destruct (flashing now (_lastErrorAtMs st) ERROR_FLASH_MS) eqn:E.
    + exfalso. apply Hne, He. reflexivity.
    + apply Ht in Hw. rewrite Hw. now rewrite _scheduleStatusRefresh_icon.
  - intros Hne Hnt.
    destruct (flashing now (_lastErrorAtMs st) ERROR_FLASH_MS) eqn:E.
    + exfalso. apply Hne, He. reflexivity.
    + destruct (flashing now (_lastTranscriptAtMs st) SUCCESS_FLASH_MS) eqn:E'.
      * exfalso. apply Hnt, Ht. reflexivity.
      * rewrite _clearStatusTimer_eq. reflexivity.
Qed.

Lemma C6_indicator_precedence_witness :
  indicatorIcon
    (_updateIndicator 1700000001000
       (set_lastTranscriptAtMs (Some 1700000000500)
          (set_lastErrorAtMs (Some 1700000000000) enabled))) = ErrorFlash.
Proof.
  refine (proj1 (proj2 (C6_indicator_precedence _ _ _)) _ _).
  - discriminate.
  - reflexivity.
  - exists 1700000000000. split; reflexivity.
Defined.

(** The status timer does what the flash needs whenever the error
    timestamp is the one that decides the icon, or is absent: the timer is
    armed for the remaining flash time, and its callback recomputes the
    icon from the current fields. *)
Lemma status_timer_armed (now : Q) (st : ext) :
  _recording st = false ->
  (forall e, _lastErrorAtMs st = Some e -> ~ e == 0 ->
             now - e < ERROR_FLASH_MS ->
             indicatorIcon (_updateIndicator now st) = ErrorFlash
             /\ _statusTimerId (_updateIndicator now st)
                = Some (now + (ERROR_FLASH_MS - (now - e))))
  /\ (forall t, truthyNum (_lastErrorAtMs st) = false ->
                _lastTranscriptAtMs st = Some t -> ~ t == 0 ->
                now - t < SUCCESS_FLASH_MS ->
                indicatorIcon (_updateIndicator now st) = SuccessFlash
                /\ _statusTimerId (_updateIndicator now st)
                   = Some (now + (SUCCESS_FLASH_MS - (now - t))))
  /\ (forall later, statusTimeout later st
                    = _updateIndicator later (set_statusTimerId None st)).
Proof.
  intros Hr. split; [|split].
  - intros e He Hz Hw.
    unfold _updateIndicator, flashing. rewrite Hr, He.
    destruct (Qiszero_spec e) as [|_]; [contradiction|].
    destruct (Qltb_spec (now - e) ERROR_FLASH_MS) as [_|]; [|lra].
    cbn [negb andb]. rewrite _scheduleStatusRefresh_icon. split; [reflexivity|].
    unfold _scheduleStatusRefresh. rewrite _clearStatusTimer_eq.
    unfold nextDelay.
    cbn [_lastErrorAtMs set_statusTimerId set_indicatorIcon truthyNum].
    rewrite He. cbn [truthyNum].
    destruct (Qiszero_spec e) as [|_]; [contradiction|]. cbn [negb].
    destruct (Qle_bool_spec (ERROR_FLASH_MS - (now - e)) 0); [lra|]. reflexivity.
  - intros t Hne Ht Hz Hw.
    assert (Hf : flashing now (_lastErrorAtMs st) ERROR_FLASH_MS = false).
    { unfold flashing. unfold truthyNum in Hne.
      destruct (_lastErrorAtMs st); [|reflexivity]. now rewrite Hne. }
    unfold _updateIndicator. rewrite Hr, Hf. unfold flashing. rewrite Ht.
    destruct (Qiszero_spec t) as [|_]; [contradiction|].
    destruct (Qltb_spec (now - t) SUCCESS_FLASH_MS) as [_|]; [|lra].
    cbn [negb andb]. rewrite _scheduleStatusRefresh_icon. split; [reflexivity|].
    unfold _scheduleStatusRefresh. rewrite _clearStatusTimer_eq.
    unfold nextDelay.
    cbn [_lastErrorAtMs _lastTranscriptAtMs set_statusTimerId set_indicatorIcon].
    rewrite Hne, Ht. cbn [truthyNum].
    destruct (Qiszero_spec t) as [|_]; [contradiction|]. cbn [negb].
    destruct (Qle_bool_spec (SUCCESS_FLASH_MS - (now - t)) 0); [lra|]. reflexivity.
  - reflexivity.
Qed.

(** C7.  The code evaluated where the property fails: the tray document
    carries an error timestamp that expired ten seconds ago and a
    transcript timestamp one second old.  The load shows the success
    flash, whose remaining time is 2000 ms, but [_scheduleStatusRefresh]
    takes the delay from the expired error timestamp, finds it negative
    and installs no timer; the loop can then never run the status
    callback, so the success flash is not reverted by a timer. *)
Theorem C7_success_flash_left_without_timer :
  let now : Q := 1700000010000 in
  let doc :=
    Parsed (VObject [("last_error_at_ms"%string, VNumber (Finite 1700000000000));
                     ("last_transcript_at_ms"%string, VNumber (Finite 1700000009000))]) in
  let st := _loadTrayState now doc enabled in
  indicatorIcon st = SuccessFlash
  /\ SUCCESS_FLASH_MS - (now - 1700000009000) == 2000
  /\ nextDelay now st = Some (ERROR_FLASH_MS - (now - 1700000000000))
  /\ ERROR_FLASH_MS - (now - 1700000000000) < 0
  /\ _statusTimerId st = None
  /\ (forall later, dispatch later StatusTimeout st = None).
Proof.
  cbv zeta. repeat split.
Qed.

(** ** StateStore and FreshnessGuard *)

Lemma overlayTry_throws (doc : document) :
  overlayTry doc = None
  <-> doc = ReadThrows \/ doc = ParseThrows
      \/ doc = Parsed VNull \/ doc = Parsed VUndefined.
Proof.
  split.
  - destruct doc as [| | |data]; cbn; auto; try discriminate.
    destruct data; cbn; auto; discriminate.
  - intros [->|[->|[->| ->]]]; reflexivity.
Qed.

Lemma trayTry_throws (doc : document) :
  trayTry doc = None
  <-> doc = ReadThrows \/ doc = ParseThrows
      \/ doc = Parsed VNull \/ doc = Parsed VUndefined.
Proof.
  split.
  - destruct doc as [| | |data]; cbn; auto; try discriminate.
    destruct data; cbn; auto; discriminate.
  - intros [->|[->|[->| ->]]]; reflexivity.
Qed.

Lemma isStale_default (now : Q) : isStale now defaultRecordingState = false.
Proof. reflexivity. Qed.

(** What [_hideOverlay] leaves behind. *)
Lemma _hideOverlay_fields (now : Q) (st : ext) :
  let st' := _hideOverlay now st in
  _recording st' = false /\ _startedAtMs st' = None
  /\ _level st' = 0 /\ _levelTarget st' = 0
  /\ overlayVisible st' = false /\ timeLabelVisible st' = false
  /\ _meterTimerId st' = None /\ _clockTimerId st' = None
  /\ _bars st' = _bars st.
Proof.
  unfold _hideOverlay.
  match goal with
  | |- context [_updateIndicator now ?s] =>
      destruct (_updateIndicator_shape now s) as (icon & timer & ->)
  end.
  unfold _stopClock, _stopMeter.
  destruct st as [bars r s l lt tr er e rc hk [m|] [c|] p ck stt lo ltr ov tv tt ic sp];
    cbn; repeat split.
Qed.

(** What [_showOverlay] leaves behind. *)
Lemma _showOverlay_fields (now : Q) (started : option Q) (st : ext) :
  let st' := _showOverlay now started st in
  _recording st' = true /\ _startedAtMs st' = started
  /\ _level st' = _level st /\ _levelTarget st' = _levelTarget st
  /\ overlayVisible st' = true /\ timeLabelVisible st' = truthyNum started
  /\ _meterTimerId st'
     = match _meterTimerId st with
       | Some due => Some due
       | None => Some (now + METER_INTERVAL_MS)
       end
  /\ _bars st' = _bars st /\ indicatorIcon st' = Recording.
Proof.
  unfold _showOverlay.
  assert (Hicon : forall s, _recording s = true ->
                            _updateIndicator now s = set_indicatorIcon Recording s).
  { intros s Hs. unfold _updateIndicator. now rewrite Hs. }
  rewrite Hicon.
  - unfold _startClock, _updateClock, _startMeter.
    destruct st as [bars r s l lt tr er e rc hk [m|] [c|] p ck stt lo ltr ov tv tt ic sp];
      destruct started as [q|]; cbn; try destruct (Qiszero q); cbn; repeat split.
  - unfold _startClock, _updateClock, _startMeter.
    destruct st as [bars r s l lt tr er e rc hk [m|] [c|] p ck stt lo ltr ov tv tt ic sp];
      destruct started as [q|]; cbn; try destruct (Qiszero q); cbn; reflexivity.
Qed.

Lemma overlayLocals_failure (now : Q) (doc : document) :
  overlayTry doc = None \/ doc = ReadNotOk ->
  overlayLocals now doc = defaultRecordingState.
Proof.
  intros H. unfold overlayLocals, overlayRead.
  destruct H as [-> | ->]; reflexivity.
Qed.

Lemma trayLocals_failure (doc : document) :
  trayTry doc = None \/ doc = ReadNotOk ->
  trayLocals doc = defaultTrayState.
Proof.
  intros H. unfold trayLocals.
  destruct H as [-> | ->]; reflexivity.
Qed.

Lemma _loadTrayState_fields (now : Q) (doc : document) (st : ext) :
  let st' := _loadTrayState now doc st in
  _trayRecent st' = trayRecent (trayLocals doc)
  /\ _lastTranscriptAtMs st' = lastTranscriptAtMs (trayLocals doc)
  /\ _lastErrorAtMs st' = lastErrorAtMs (trayLocals doc)
  /\ _lastError st' = lastError (trayLocals doc)
  /\ _hotkeys st' = hotkeys (trayLocals doc).
Proof.
  unfold _loadTrayState.
  match goal with
  | |- context [_updateIndicator now ?s] =>
      destruct (_updateIndicator_shape now s) as (icon & timer & ->)
  end.
  cbn. repeat split.
Qed.




(** C2 (as amended).  For a parsed recording document with recording true
    and an update time that is present and not zero: when
    [now - updatedAtMs] exceeds the staleness threshold (5000 ms) the
    loaded state is normalised to idle (not recording, no start time,
    level zero, overlay hidden); when it is at most the threshold, in
    particular exactly the threshold, the state is kept as read and the
    overlay is shown. *)
Theorem C2_stale_recording_normalised :
  forall (now u : Q) (doc : document) (st : ext),
    recording (overlayRead doc) = true ->
    updatedAtMs (overlayRead doc) = Some u ->
    ~ u == 0 ->
    (STALE_STATE_MS < now - u ->
     overlayLocals now doc = mkRecordingState false None 0 (Some u)
     /\ _recording (_loadOverlayState now doc st) = false
     /\ _startedAtMs (_loadOverlayState now doc st) = None
     /\ _level (_loadOverlayState now doc st) = 0
     /\ _levelTarget (_loadOverlayState now doc st) = 0
     /\ overlayVisible (_loadOverlayState now doc st) = false)
    /\ (now - u <= STALE_STATE_MS ->
        overlayLocals now doc = overlayRead doc
        /\ _recording (_loadOverlayState now doc st) = true
        /\ _startedAtMs (_loadOverlayState now doc st) = startedAtMs (overlayRead doc)
        /\ _levelTarget (_loadOverlayState now doc st) = level (overlayRead doc)
        /\ overlayVisible (_loadOverlayState now doc st) = true)
    /\ STALE_STATE_MS = 5000.
Proof.
  intros now u doc st Hr Hu Hz.
  assert (Hs : isStale now (overlayRead doc) = Qltb STALE_STATE_MS (now - u)).
  { unfold isStale. rewrite Hr, Hu.
    destruct (Qiszero_spec u); [contradiction|]. reflexivity. }
  split; [|split; [|reflexivity]]; intros Hage.
  - assert (E : overlayLocals now doc = mkRecordingState false None 0 (Some u)).
    { unfold overlayLocals. cbv zeta. rewrite Hs, Hu.
      destruct (Qltb_spec STALE_STATE_MS (now - u)); [reflexivity|lra]. }
    split; [exact E|]. unfold _loadOverlayState. rewrite E. cbn [recording level].
    destruct (_hideOverlay_fields now (set_levelTarget 0 st))
      as (H1 & H2 & H3 & H4 & H5 & _).
    auto.
  - assert (E : overlayLocals now doc = overlayRead doc).
    { unfold overlayLocals. cbv zeta. rewrite Hs.
      destruct (Qltb_spec STALE_STATE_MS (now - u)); [lra|reflexivity]. }
    split; [exact E|]. unfold _loadOverlayState. rewrite E, Hr.
    destruct (_showOverlay_fields now (startedAtMs (overlayRead doc))
                (set_levelTarget (level (overlayRead doc)) st))
      as (H1 & H2 & _ & H4 & H5 & _).
    auto.
Qed.

Lemma C2_stale_recording_normalised_witness :
  let doc :=
    Parsed (VObject [("recording"%string, VBool true);
                     ("started_at_ms"%string, VNumber (Finite 1699999990000));
                     ("level"%string, VNumber (Finite 0.7));
                     ("updated_at_ms"%string, VNumber (Finite 1700000000000))]) in
  _recording (_loadOverlayState 1700000005001 doc enabled) = false
  /\ _recording (_loadOverlayState 1700000005000 doc enabled) = true.
Proof.
  cbv zeta. split.
  - refine (proj1 (proj2 (proj1 (C2_stale_recording_normalised
                                   1700000005001 1700000000000 _ enabled _ _ _) _))).
    + reflexivity.
    + reflexivity.
    + intros H. discriminate H.
    + reflexivity.
  - refine (proj1 (proj2 (proj1 (proj2 (C2_stale_recording_normalised
                                   1700000005000 1700000000000 _ enabled _ _ _)) _))).
    + reflexivity.
    + reflexivity.
    + intros H. discriminate H.
    + intros H. discriminate H.
Defined.

(** C2 as stated fails when the update time is present but zero: the
    document is 1.7e12 ms older than [now], yet the truthiness test on
    [updatedAtMs] skips the staleness check and the state stays
    recording. *)
Lemma C2_counterexample_zero_timestamp :
  let now : Q := 1700000000000 in
  let doc :=
    Parsed (VObject [("recording"%string, VBool true);
                     ("started_at_ms"%string, VNumber (Finite 1699999990000));
                     ("level"%string, VNumber (Finite 0.7));
                     ("updated_at_ms"%string, VNumber (Finite 0))]) in
  recording (overlayRead doc) = true
  /\ updatedAtMs (overlayRead doc) = Some 0
  /\ STALE_STATE_MS < now - 0
  /\ overlayLocals now doc
     = mkRecordingState true (Some 1699999990000) 0.7 (Some 0)
  /\ _recording (_loadOverlayState now doc enabled) = true
  /\ _startedAtMs (_loadOverlayState now doc enabled) = Some 1699999990000
  /\ overlayVisible (_loadOverlayState now doc enabled) = true.
Proof.
  cbv zeta. repeat split.
Qed.

Lemma _loadOverlayState_recording (now : Q) (doc : document) (st : ext) :
  _recording (_loadOverlayState now doc st) = recording (overlayLocals now doc)
  /\ overlayVisible (_loadOverlayState now doc st) = recording (overlayLocals now doc).
Proof.
  unfold _loadOverlayState. destruct (recording (overlayLocals now doc)).
  - split; apply _showOverlay_fields.
  - split; apply _hideOverlay_fields.
Qed.

(** C3 (as amended).  A loaded recording document with recording true is
    treated as not recording exactly when its update time is present, not
    zero and older than the staleness threshold.  A document with
    recording true whose [updated_at_ms] field is absent, not a number or
    not finite has no update time, skips the staleness check and is
    treated as recording: the overlay is shown. *)
Theorem C3_stale_only_with_update_time :
  forall (now : Q) (doc : document) (st : ext),
    recording (overlayRead doc) = true ->
    (recording (overlayLocals now doc) = false
     <-> exists u, updatedAtMs (overlayRead doc) = Some u
                   /\ ~ u == 0 /\ STALE_STATE_MS < now - u)
    /\ _recording (_loadOverlayState now doc st) = recording (overlayLocals now doc)
    /\ overlayVisible (_loadOverlayState now doc st) = recording (overlayLocals now doc)
    /\ (updatedAtMs (overlayRead doc) = None ->
        recording (overlayLocals now doc) = true)
    /\ (forall props, doc = Parsed (VObject props) ->
        isFinite (own props "updated_at_ms") = None ->
        updatedAtMs (overlayRead doc) = None).
Proof.
  intros now doc st Hr.
  split; [|split; [|split; [|split]]].
  - unfold overlayLocals, isStale. cbv zeta. rewrite Hr. cbn [andb].
    destruct (updatedAtMs (overlayRead doc)) as [u|].
    + destruct (Qiszero_spec u) as [Hz|Hz]; cbn [negb andb].
      * rewrite Hr. split; [discriminate|].
        intros (u' & Hu & Hnz & _). injection Hu as <-. contradiction.
      * destruct (Qltb_spec STALE_STATE_MS (now - u)) as [Hl|Hl].
        -- cbn [recording]. split; [|reflexivity]. intros _. exists u. auto.
        -- rewrite Hr. split; [discriminate|].
           intros (u' & Hu & _ & Hlt). injection Hu as <-. lra.
    + rewrite Hr. split; [discriminate|]. intros (u' & Hu & _). discriminate.
  - apply _loadOverlayState_recording.
  - apply _loadOverlayState_recording.
  - intros Hu. unfold overlayLocals, isStale. cbv zeta. rewrite Hr, Hu.
    cbn [andb]. exact Hr.
  - intros props -> Hf. cbn. exact Hf.
Qed.

Lemma C3_stale_only_with_update_time_witness :
  let doc := Parsed (VObject [("recording"%string, VBool true);
                              ("level"%string, VNumber (Finite 0.7))]) in
  recording (overlayLocals 1700000000000 doc) = true.
Proof.
  cbv zeta.
  refine (proj1 (proj2 (proj2 (proj2 (C3_stale_only_with_update_time
                                       1700000000000 _ enabled _)))) _).
  - reflexivity.
  - reflexivity.
Defined.

(** C3 as stated fails: a document with recording true and no
    [updated_at_ms] field, or with one that is not finite, is loaded as
    recording and the overlay is shown. *)
Lemma C3_counterexample_missing_update_time :
  let now : Q := 1700000000000 in
  let absent := Parsed (VObject [("recording"%string, VBool true)]) in
  let infinite := Parsed (VObject [("recording"%string, VBool true);
                                   ("updated_at_ms"%string, VNumber PosInfinity)]) in
  updatedAtMs (overlayLocals now absent) = None
  /\ recording (overlayLocals now absent) = true
  /\ _recording (_loadOverlayState now absent enabled) = true
  /\ overlayVisible (_loadOverlayState now absent enabled) = true
  /\ indicatorIcon (_loadOverlayState now absent enabled) = Recording
  /\ updatedAtMs (overlayLocals now infinite) = None
  /\ recording (overlayLocals now infinite) = true
  /\ _recording (_loadOverlayState now infinite enabled) = true.
Proof.
  cbv zeta. repeat split.
Qed.

(** C9 (as amended).  When a read of the recording document yields not
    recording, the overlay is hidden, the meter timer is removed, so that
    no further meter tick can run, and the smoothed level and the target
    level are reset to zero; the bar heights themselves are left as the
    last tick set them. *)
Theorem C9_meter_stops_when_recording_ends :
  forall (now : Q) (doc : document) (st : ext),
    recording (overlayLocals now doc) = false ->
    _recording (_loadOverlayState now doc st) = false
    /\ overlayVisible (_loadOverlayState now doc st) = false
    /\ _meterTimerId (_loadOverlayState now doc st) = None
    /\ (forall later, dispatch later MeterTimeout (_loadOverlayState now doc st) = None)
    /\ _level (_loadOverlayState now doc st) = 0
    /\ _levelTarget (_loadOverlayState now doc st) = 0
    /\ _bars (_loadOverlayState now doc st) = _bars st.
Proof.
  intros now doc st Hr. unfold _loadOverlayState. rewrite Hr.
  destruct (_hideOverlay_fields now (set_levelTarget (level (overlayLocals now doc)) st))
    as (H1 & _ & H3 & H4 & H5 & _ & H7 & _ & H9).
  repeat split; try assumption.
  intros later. cbn [dispatch]. rewrite H7. reflexivity.
Qed.

Lemma C9_meter_stops_when_recording_ends_witness :
  _meterTimerId
    (_loadOverlayState 1700000000200 ReadThrows
       (meterTimeout 1700000000150
          (_startMeter 1700000000000 (set_levelTarget 1 enabled)))) = None.
Proof.
  refine (proj1 (proj2 (proj2 (C9_meter_stops_when_recording_ends _ _ _ _)))).
  reflexivity.
Defined.

(** C9 as stated fails: after recording starts, one meter tick raises
    the bars; the next read says not recording, which hides the overlay
    and removes the meter timer, and the bars keep the heights of the
    last tick instead of the minimum height. *)
Lemma C9_counterexample_bars_not_reset :
  let now : Q := 1700000000000 in
  let active :=
    Parsed (VObject [("recording"%string, VBool true);
                     ("level"%string, VNumber (Finite 1));
                     ("updated_at_ms"%string, VNumber (Finite 1700000000000))]) in
  let inactive :=
    Parsed (VObject [("recording"%string, VBool false);
                     ("level"%string, VNumber (Finite 0));
                     ("updated_at_ms"%string, VNumber (Finite 1700000000160))]) in
  exists st,
    run now [(now + 150, MeterTimeout);
             (now + 160, Changed (Some "overlay.tmp"%string) (Some "overlay.json"%string));
             (now + 220, LoadOverlayTimeout inactive)]
        (_loadOverlayState now active enabled) = Some st
    /\ _recording st = false
    /\ overlayVisible st = false
    /\ _meterTimerId st = None
    /\ _bars st = [13; 14; 16; 17; 16; 16; 17; 16; 14; 13]%Z
    /\ _bars st <> repeat BAR_MIN_HEIGHT BAR_COUNT.
Proof.
  cbv zeta. eexists. split; [vm_compute; reflexivity|].
  repeat split. discriminate.
Qed.

(** ** The main loop: what each dispatch does to the timers of the change
    watcher and of the click disambiguator *)

(** Projections of the four fields through the field updates. *)
Ltac same_inputs :=
  unfold sameInputs;
  cbn [_loadOverlayTimerId _loadTrayTimerId _clickTimerId spawned
       set_bars set_recording set_startedAtMs set_level set_levelTarget
       set_lastTranscriptAtMs set_lastErrorAtMs set_lastError set_trayRecent
       set_hotkeys set_meterTimerId set_clockTimerId set_pollTimerId
       set_clickTimerId set_statusTimerId set_loadOverlayTimerId
       set_loadTrayTimerId set_overlayVisible set_timeLabelVisible
       set_timeLabelText set_indicatorIcon set_spawned];
  auto.

Lemma sameInputs_refl (a : ext) : sameInputs a a.
Proof. same_inputs. Qed.

Lemma sameInputs_trans (a b c : ext) :
  sameInputs a b -> sameInputs b c -> sameInputs a c.
Proof.
  intros (H1 & H2 & H3 & H4) (K1 & K2 & K3 & K4).
  repeat split; congruence.
Qed.

Lemma set_pollTimerId_inputs (v : option Q) (st : ext) :
  sameInputs (set_pollTimerId v st) st.
Proof. destruct st. same_inputs. Qed.

Lemma _updateIndicator_inputs (now : Q) (st : ext) :
  sameInputs (_updateIndicator now st) st.
Proof.
  destruct (_updateIndicator_shape now st) as (icon & timer & ->).
  same_inputs.
Qed.

Lemma _hideOverlay_inputs (now : Q) (st : ext) :
  sameInputs (_hideOverlay now st) st.
Proof.
  unfold _hideOverlay.
  eapply sameInputs_trans; [apply _updateIndicator_inputs|].
  unfold _stopClock, _stopMeter.
  destruct (_clockTimerId _); destruct (_meterTimerId _); same_inputs.
Qed.

Lemma _showOverlay_inputs (now : Q) (started : option Q) (st : ext) :
  sameInputs (_showOverlay now started st) st.
Proof.
  unfold _showOverlay.
  eapply sameInputs_trans; [apply _updateIndicator_inputs|].
  unfold _startClock, _updateClock.
  repeat match goal with
         | |- context [if ?b then _ else _] => destruct b
         | |- context [match _clockTimerId ?s with _ => _ end] => destruct (_clockTimerId s)
         | |- context [match _startedAtMs ?s with _ => _ end] => destruct (_startedAtMs s)
         end;
    unfold _startMeter; destruct (_meterTimerId _); same_inputs.
Qed.

Lemma _loadOverlayState_inputs (now : Q) (doc : document) (st : ext) :
  sameInputs (_loadOverlayState now doc st) st.
Proof.
  unfold _loadOverlayState. destruct (recording (overlayLocals now doc)).
  - eapply sameInputs_trans; [apply _showOverlay_inputs|]. same_inputs.
  - eapply sameInputs_trans; [apply _hideOverlay_inputs|]. same_inputs.
Qed.

Lemma _loadTrayState_inputs (now : Q) (doc : document) (st : ext) :
  sameInputs (_loadTrayState now doc st) st.
Proof.
  unfold _loadTrayState.
  eapply sameInputs_trans; [apply _updateIndicator_inputs|]. same_inputs.
Qed.

Lemma clockTimeout_inputs (now : Q) (st : ext) :
  sameInputs (clockTimeout now st) st.
Proof.
  unfold clockTimeout, _updateClock.
  destruct (_startedAtMs st) as [q|]; [destruct (Qiszero q)|]; same_inputs.
Qed.

Lemma pollTimeout_inputs (now : Q) (o t : document) (st : ext) :
  sameInputs (pollTimeout now o t st) st.
Proof.
  unfold pollTimeout.
  eapply sameInputs_trans; [apply set_pollTimerId_inputs|].
  eapply sameInputs_trans; [apply _loadTrayState_inputs|].
  apply _loadOverlayState_inputs.
Qed.

Lemma isDue_inv (now : Q) (timer : option Q) :
  isDue now timer = true -> exists due, timer = Some due /\ due <= now.
Proof.
  unfold isDue. destruct timer as [d|]; [|discriminate].
  intros H. exists d. split; [reflexivity | now apply Qle_bool_iff].
Qed.

(** The debounce timer of the recording document. *)
Lemma dispatch_loadOverlayTimer (now : Q) (o : occurrence) (st st' : ext) :
  dispatch now o st = Some st' ->
  _loadOverlayTimerId st'
  = (if overlayNotification o then
       match _loadOverlayTimerId st with
       | Some due => Some due
       | None => Some (now + LOAD_OVERLAY_DELAY_MS)
       end
     else if isOverlayReload o then None
     else _loadOverlayTimerId st)
  /\ (isOverlayReload o = true ->
      exists due, _loadOverlayTimerId st = Some due /\ due <= now).
Proof.
  destruct o; cbn [dispatch overlayNotification isOverlayReload];
    try match goal with
        | |- context [isDue ?n ?t] => destruct (isDue n t) eqn:Hdue; [|discriminate]
        end;
    intros [= <-]; (split; [|try discriminate]).
  - unfold changed, _scheduleLoadTray, _scheduleLoadOverlay.
    destruct (refersTo STATE_FILE STATE_TMP_FILE _);
      destruct (refersTo TRAY_FILE TRAY_TMP_FILE _);
      destruct (_loadOverlayTimerId st) eqn:E; cbn; rewrite ?E;
      try reflexivity;
      destruct (_loadTrayTimerId _) eqn:E'; cbn; rewrite ?E; reflexivity.
  - unfold _handlePrimaryClick, _clearClickTimer, _openApp.
    destruct (_clickTimerId st); reflexivity.
  - unfold loadOverlayTimeout.
    destruct (_loadOverlayState_inputs now doc (set_loadOverlayTimerId None st)) as (H & _).
    exact H.
  - intros _. apply isDue_inv. exact Hdue.
  - unfold loadTrayTimeout.
    destruct (_loadTrayState_inputs now doc (set_loadTrayTimerId None st)) as (H & _).
    exact H.
  - reflexivity.
  - apply clockTimeout_inputs.
  - reflexivity.
  - unfold statusTimeout.
    destruct (_updateIndicator_inputs now (set_statusTimerId None st)) as (H & _).
    exact H.
  - apply pollTimeout_inputs.
Qed.

(** The debounce timer of the tray document. *)
Lemma dispatch_loadTrayTimer (now : Q) (o : occurrence) (st st' : ext) :
  dispatch now o st = Some st' ->
  _loadTrayTimerId st'
  = (if trayNotification o then
       match _loadTrayTimerId st with
       | Some due => Some due
       | None => Some (now + LOAD_TRAY_DELAY_MS)
       end
     else if isTrayReload o then None
     else _loadTrayTimerId st)
  /\ (isTrayReload o = true ->
      exists due, _loadTrayTimerId st = Some due /\ due <= now).
Proof.
  destruct o; cbn [dispatch trayNotification isTrayReload];
    try match goal with
        | |- context [isDue ?n ?t] => destruct (isDue n t) eqn:Hdue; [|discriminate]
        end;
    intros [= <-]; (split; [|try discriminate]).
  - unfold changed, _scheduleLoadTray, _scheduleLoadOverlay.
    destruct (refersTo STATE_FILE STATE_TMP_FILE _);
      destruct (refersTo TRAY_FILE TRAY_TMP_FILE _);
      destruct (_loadOverlayTimerId st) eqn:E; cbn; rewrite ?E;
      try reflexivity;
      destruct (_loadTrayTimerId st) eqn:E'; cbn; rewrite ?E'; reflexivity.
  - unfold _handlePrimaryClick, _clearClickTimer, _openApp.
    destruct (_clickTimerId st); reflexivity.
  - unfold loadOverlayTimeout.
    destruct (_loadOverlayState_inputs now doc (set_loadOverlayTimerId None st))
      as (_ & H & _).
    exact H.
  - unfold loadTrayTimeout.
    destruct (_loadTrayState_inputs now doc (set_loadTrayTimerId None st))
      as (_ & H & _).
    exact H.
  - intros _. apply isDue_inv. exact Hdue.
  - reflexivity.
  - apply clockTimeout_inputs.
  - reflexivity.
  - unfold statusTimeout.
    destruct (_updateIndicator_inputs now (set_statusTimerId None st)) as (_ & H & _).
    exact H.
  - apply pollTimeout_inputs.
Qed.

(** The click timer and the commands spawned. *)
Lemma dispatch_click (now : Q) (o : occurrence) (st st' : ext) :
  dispatch now o st = Some st' ->
  _clickTimerId st'
  = (if isPress o then
       match _clickTimerId st with
       | Some _ => None
       | None => Some (now + DOUBLE_CLICK_MS)
       end
     else if isClickTimeout o then None
     else _clickTimerId st)
  /\ spawned st'
     = (if isPress o then
          match _clickTimerId st with
          | Some _ => Show :: spawned st
          | None => spawned st
          end
        else if isClickTimeout o then Toggle :: spawned st
        else spawned st)
  /\ (isClickTimeout o = true ->
      exists due, _clickTimerId st = Some due /\ due <= now).
Proof.
  destruct o; cbn [dispatch isPress isClickTimeout];
    try match goal with
        | |- context [isDue ?n ?t] => destruct (isDue n t) eqn:Hdue; [|discriminate]
        end;
    intros [= <-]; (split; [|split; [|try discriminate]]).
  - unfold changed, _scheduleLoadTray, _scheduleLoadOverlay.
    destruct (refersTo STATE_FILE STATE_TMP_FILE _);
      destruct (refersTo TRAY_FILE TRAY_TMP_FILE _);
      destruct (_loadOverlayTimerId st) eqn:E; cbn; rewrite ?E;
      try reflexivity;
      destruct (_loadTrayTimerId st) eqn:E'; cbn; rewrite ?E'; reflexivity.
  - unfold changed, _scheduleLoadTray, _scheduleLoadOverlay.
    destruct (refersTo STATE_FILE STATE_TMP_FILE _);
      destruct (refersTo TRAY_FILE TRAY_TMP_FILE _);
      destruct (_loadOverlayTimerId st) eqn:E; cbn; rewrite ?E;
      try reflexivity;
      destruct (_loadTrayTimerId st) eqn:E'; cbn; rewrite ?E'; reflexivity.
  - unfold _handlePrimaryClick, _clearClickTimer, _openApp.
    destruct (_clickTimerId st); reflexivity.
  - unfold _handlePrimaryClick, _clearClickTimer, _openApp.
    destruct (_clickTimerId st); reflexivity.
  - unfold loadOverlayTimeout.
    destruct (_loadOverlayState_inputs now doc (set_loadOverlayTimerId None st))
      as (_ & _ & H & _).
    exact H.
  - unfold loadOverlayTimeout.
    destruct (_loadOverlayState_inputs now doc (set_loadOverlayTimerId None st))
      as (_ & _ & _ & H).
    exact H.
  - unfold loadTrayTimeout.
    destruct (_loadTrayState_inputs now doc (set_loadTrayTimerId None st))
      as (_ & _ & H & _).
    exact H.
  - unfold loadTrayTimeout.
    destruct (_loadTrayState_inputs now doc (set_loadTrayTimerId None st))
      as (_ & _ & _ & H).
    exact H.
  - reflexivity.
  - reflexivity.
  - apply clockTimeout_inputs.
  - apply clockTimeout_inputs.
  - reflexivity.
  - reflexivity.
  - intros _. apply isDue_inv. exact Hdue.
  - unfold statusTimeout.
    destruct (_updateIndicator_inputs now (set_statusTimerId None st)) as (_ & _ & H & _).
    exact H.
  - unfold statusTimeout.
    destruct (_updateIndicator_inputs now (set_statusTimerId None st)) as (_ & _ & _ & H).
    exact H.
  - apply pollTimeout_inputs.
  - apply pollTimeout_inputs.
Qed.

(** ** The main loop: schedules *)

Lemma run_cons (clock t : Q) (o : occurrence) (rest : schedule) (st st' : ext) :
  run clock ((t, o) :: rest) st = Some st' ->
  clock <= t
  /\ exists st1, dispatch t o st = Some st1 /\ run t rest st1 = Some st'.
Proof.
  cbn [run]. destruct (Qle_bool_spec clock t) as [H|H]; [|discriminate].
  destruct (dispatch t o st) as [st1|]; [|discriminate].
  intros Hrun. split; [assumption|]. exists st1. split; [reflexivity|assumption].
Qed.

Lemma run_app (s1 s2 : schedule) :
  forall (clock : Q) (st st' : ext),
    run clock (s1 ++ s2) st = Some st' ->
    exists mid, run clock s1 st = Some mid
                /\ run (endTime clock s1) s2 mid = Some st'.
Proof.
  induction s1 as [|[t o] s1 IH]; intros clock st st' H.
  - exists st. split; [reflexivity | exact H].
  - rewrite <- app_comm_cons in H.
    cbn [run endTime] in *.
    destruct (Qle_bool clock t); [|discriminate].
    destruct (dispatch t o st) as [st1|]; [|discriminate].
    apply IH. exact H.
Qed.

(** Time never goes back in a schedule that runs. *)
Lemma run_times (s : schedule) :
  forall (clock : Q) (st st' : ext),
    run clock s st = Some st' ->
    clock <= endTime clock s
    /\ Forall (fun e => clock <= fst e <= endTime clock s) s.
Proof.
  induction s as [|[t o] s IH]; intros clock st st' H.
  - cbn. split; [lra | constructor].
  - apply run_cons in H. destruct H as (Hle & st1 & _ & Hrun).
    destruct (IH t st1 st' Hrun) as (Hend & Hall).
    cbn [endTime]. split; [lra|].
    constructor.
    + cbn [fst]. split; assumption.
    + eapply Forall_impl; [|exact Hall].
      intros e [H1 H2]. split; [lra | assumption].
Qed.

Lemma count_cons (p : occurrence -> bool) (t : Q) (o : occurrence) (s : schedule) :
  count p ((t, o) :: s) = ((if p o then 1 else 0) + count p s)%nat.
Proof.
  unfold count. cbn [filter snd]. destruct (p o); reflexivity.
Qed.

Lemma count_app (p : occurrence -> bool) (s1 s2 : schedule) :
  count p (s1 ++ s2) = (count p s1 + count p s2)%nat.
Proof.
  unfold count. rewrite filter_app. apply length_app.
Qed.

Lemma count_zero_cons (p : occurrence -> bool) (t : Q) (o : occurrence) (s : schedule) :
  count p ((t, o) :: s) = 0%nat -> p o = false /\ count p s = 0%nat.
Proof.
  rewrite count_cons. destruct (p o); cbn; [discriminate | auto].
Qed.

Lemma each_cons (p : occurrence -> bool) (when : Q -> Prop)
      (t : Q) (o : occurrence) (s : schedule) :
  each p when ((t, o) :: s) <-> (p o = true -> when t) /\ each p when s.
Proof.
  unfold each. split.
  - intros H. inversion H; subst. auto.
  - intros [H1 H2]. constructor; assumption.
Qed.

Lemma count_zero_each (p : occurrence -> bool) (when : Q -> Prop) (s : schedule) :
  count p s = 0%nat -> each p when s.
Proof.
  induction s as [|[t o] s IH]; intros H.
  - constructor.
  - apply count_zero_cons in H. destruct H as [Hp Hs].
    apply each_cons. split; [congruence | auto].
Qed.

(** *** A one-shot timer armed by the first notification

    The two debounce timers follow one pattern, given here once: a
    notification installs the timer only when none is installed, and the
    timeout callback removes it. *)
Section Debounce.

Variable timer : ext -> option Q.
Variables notification reload : occurrence -> bool.
Variable delay : Q.

Hypothesis dispatch_timer :
  forall (now : Q) (o : occurrence) (st st' : ext),
    dispatch now o st = Some st' ->
    timer st'
    = (if notification o then
         match timer st with
         | Some due => Some due
         | None => Some (now + delay)
         end
       else if reload o then None
       else timer st)
    /\ (reload o = true -> exists due, timer st = Some due /\ due <= now).

Hypothesis exclusive :
  forall o, notification o = true -> reload o = false.

(** No timer installed and no notification to come: nothing reloads. *)
Lemma debounce_idle (due : Q) (rest : schedule) :
  forall (clock : Q) (st st' : ext),
    timer st = None ->
    due <= clock ->
    each notification (fun t => t < due) rest ->
    run clock rest st = Some st' ->
    timer st' = None /\ count reload rest = 0%nat.
Proof.
  induction rest as [|[t o] rest IH]; intros clock st st' Ht Hclock Hn Hrun.
  - injection Hrun as <-. auto.
  - apply run_cons in Hrun. destruct Hrun as (Hle & st1 & Hd & Hrun).
    apply each_cons in Hn. destruct Hn as [Hn Hrest].
    destruct (dispatch_timer _ _ _ _ Hd) as [Ht1 Hdue].
    destruct (notification o) eqn:En.
    + specialize (Hn eq_refl). lra.
    + destruct (reload o) eqn:Er.
      * destruct (Hdue eq_refl) as (d & Hsome & _). congruence.
      * rewrite Ht in Ht1.
        rewrite count_cons, Er.
        apply (IH t st1 st' Ht1); [lra | assumption | assumption].
Qed.

(** A timer installed for [due]: later notifications leave it alone,
    and it fires once, not before [due]. *)
Lemma debounce_pending (due : Q) (rest : schedule) :
  forall (clock : Q) (st st' : ext),
    timer st = Some due ->
    each notification (fun t => t < due) rest ->
    run clock rest st = Some st' ->
    match timer st' with
    | Some due' => due' = due /\ count reload rest = 0%nat
    | None => count reload rest = 1%nat
    end
    /\ each reload (fun t => due <= t) rest.
Proof.
  induction rest as [|[t o] rest IH]; intros clock st st' Ht Hn Hrun.
  - injection Hrun as <-. rewrite Ht. split; [auto | constructor].
  - apply run_cons in Hrun. destruct Hrun as (Hle & st1 & Hd & Hrun).
    apply each_cons in Hn. destruct Hn as [Hn Hrest].
    destruct (dispatch_timer _ _ _ _ Hd) as [Ht1 Hdue].
    rewrite count_cons.
    destruct (notification o) eqn:En.
    + rewrite (exclusive o En). rewrite Ht in Ht1.
      destruct (IH t st1 st' Ht1 Hrest Hrun) as [H1 H2].
      split; [exact H1|].
      apply each_cons. split; [|exact H2].
      rewrite (exclusive o En). discriminate.
    + destruct (reload o) eqn:Er.
      * destruct (Hdue eq_refl) as (d & Hsome & Hd_le).
        assert (d = due) by congruence. subst d.
        destruct (debounce_idle due rest t st1 st' Ht1 Hd_le Hrest Hrun) as [H1 H2].
        rewrite H1, H2. split; [reflexivity|].
        apply each_cons. split; [intros _; exact Hd_le|].
        apply count_zero_each. exact H2.
      * rewrite Ht in Ht1.
        destruct (IH t st1 st' Ht1 Hrest Hrun) as [H1 H2].
        split; [exact H1|].
        apply each_cons. split; [|exact H2]. rewrite Er. discriminate.
Qed.

(** A burst: the first notification installs the timer, the others
    arrive before it is due; exactly one reload follows. *)
Lemma debounce_burst (t1 : Q) (o1 : occurrence) (rest : schedule) :
  forall (clock : Q) (st st' : ext),
    timer st = None ->
    notification o1 = true ->
    each notification (fun t => t < t1 + delay) rest ->
    run clock ((t1, o1) :: rest) st = Some st' ->
    match timer st' with
    | Some due => due = t1 + delay /\ count reload rest = 0%nat
    | None => count reload rest = 1%nat
    end
    /\ each reload (fun t => t1 + delay <= t) rest.
Proof.
  intros clock st st' Ht Hn Hrest Hrun.
  apply run_cons in Hrun. destruct Hrun as (Hle & st1 & Hd & Hrun).
  destruct (dispatch_timer _ _ _ _ Hd) as [Ht1 _].
  rewrite Hn, Ht in Ht1.
  exact (debounce_pending (t1 + delay) rest t1 st1 st' Ht1 Hrest Hrun).
Qed.

End Debounce.

(** ** ChangeWatcher *)

Lemma overlay_exclusive (o : occurrence) :
  overlayNotification o = true -> isOverlayReload o = false.
Proof. destruct o; cbn; congruence. Qed.

Lemma tray_exclusive (o : occurrence) :
  trayNotification o = true -> isTrayReload o = false.
Proof. destruct o; cbn; congruence. Qed.

Lemma refersTo_iff (final tmp : string) (file otherFile : option string) :
  refersTo final tmp (basenames file otherFile) = true
  <-> file = Some final \/ file = Some tmp
      \/ otherFile = Some final \/ otherFile = Some tmp.
Proof.
  unfold refersTo, basenames.
  destruct file as [f|]; destruct otherFile as [g|]; cbn [app existsb];
    rewrite ?orb_true_iff, ?orb_false_r, ?String.eqb_eq; split; intros H;
    repeat match goal with
           | H : _ \/ _ |- _ => destruct H
           | H : Some _ = Some _ |- _ => injection H as H
           | H : None = Some _ |- _ => discriminate H
           | H : false = true |- _ => discriminate H
           end; subst; auto 6.
Qed.

(** C4 (as amended).  For a burst of one or more [changed] signals that
    name the same logical file, by its final name or by the name of its
    temporary file, all arriving before the timer installed by the first
    one is due, exactly one reload of that file is performed.  The timer
    is installed by the first signal only, for 60 ms (recording document)
    or 120 ms (tray document) after it; signals that arrive while it is
    installed do not re-arm it; it can be dispatched at any time from
    its due time on, and it fires once, not before it is due.  The
    two documents have separate timers, and a dispatch that neither
    names a document nor reloads it leaves that document's timer alone. *)
Theorem C4_one_reload_per_burst :
  forall (t1 : Q) (o1 : occurrence) (rest : schedule) (clock : Q) (st st' : ext),
    run clock ((t1, o1) :: rest) st = Some st' ->
    (overlayNotification o1 = true ->
     _loadOverlayTimerId st = None ->
     each overlayNotification (fun t => t < t1 + LOAD_OVERLAY_DELAY_MS) rest ->
     match _loadOverlayTimerId st' with
     | Some due => due = t1 + LOAD_OVERLAY_DELAY_MS
                   /\ count isOverlayReload rest = 0%nat
     | None => count isOverlayReload rest = 1%nat
     end
     /\ each isOverlayReload (fun t => t1 + LOAD_OVERLAY_DELAY_MS <= t) rest)
    /\ (trayNotification o1 = true ->
        _loadTrayTimerId st = None ->
        each trayNotification (fun t => t < t1 + LOAD_TRAY_DELAY_MS) rest ->
        match _loadTrayTimerId st' with
        | Some due => due = t1 + LOAD_TRAY_DELAY_MS
                      /\ count isTrayReload rest = 0%nat
        | None => count isTrayReload rest = 1%nat
        end
        /\ each isTrayReload (fun t => t1 + LOAD_TRAY_DELAY_MS <= t) rest)
    /\ (forall st1, dispatch t1 o1 st = Some st1 ->
        (forall due, overlayNotification o1 = true ->
                     _loadOverlayTimerId st = Some due ->
                     _loadOverlayTimerId st1 = Some due)
        /\ (forall due, trayNotification o1 = true ->
                        _loadTrayTimerId st = Some due ->
                        _loadTrayTimerId st1 = Some due)
        /\ (overlayNotification o1 = false -> isOverlayReload o1 = false ->
            _loadOverlayTimerId st1 = _loadOverlayTimerId st)
        /\ (trayNotification o1 = false -> isTrayReload o1 = false ->
            _loadTrayTimerId st1 = _loadTrayTimerId st)
        /\ (forall t doc, overlayNotification o1 = true ->
                          _loadOverlayTimerId st = None ->
                          t1 + LOAD_OVERLAY_DELAY_MS <= t ->
                          exists st2, dispatch t (LoadOverlayTimeout doc) st1 = Some st2
                                      /\ _loadOverlayTimerId st2 = None)
        /\ (forall t doc, trayNotification o1 = true ->
                          _loadTrayTimerId st = None ->
                          t1 + LOAD_TRAY_DELAY_MS <= t ->
                          exists st2, dispatch t (LoadTrayTimeout doc) st1 = Some st2
                                      /\ _loadTrayTimerId st2 = None))
    /\ (forall file otherFile,
           overlayNotification (Changed file otherFile) = true
           <-> file = Some "overlay.json"%string \/ file = Some "overlay.tmp"%string
               \/ otherFile = Some "overlay.json"%string
               \/ otherFile = Some "overlay.tmp"%string)
    /\ (forall file otherFile,
           trayNotification (Changed file otherFile) = true
           <-> file = Some "tray.json"%string \/ file = Some "tray.tmp"%string
               \/ otherFile = Some "tray.json"%string
               \/ otherFile = Some "tray.tmp"%string)
    /\ LOAD_OVERLAY_DELAY_MS = 60 /\ LOAD_TRAY_DELAY_MS = 120.
Proof.
  intros t1 o1 rest clock st st' Hrun.
  split; [|split; [|split; [|split; [|split; [|split; reflexivity]]]]].
  - intros Hn Ht Hrest.
    exact (debounce_burst _loadOverlayTimerId overlayNotification isOverlayReload
             LOAD_OVERLAY_DELAY_MS dispatch_loadOverlayTimer overlay_exclusive
             t1 o1 rest clock st st' Ht Hn Hrest Hrun).
  - intros Hn Ht Hrest.
    exact (debounce_burst _loadTrayTimerId trayNotification isTrayReload
             LOAD_TRAY_DELAY_MS dispatch_loadTrayTimer tray_exclusive
             t1 o1 rest clock st st' Ht Hn Hrest Hrun).
  - intros st1 Hd.
    destruct (dispatch_loadOverlayTimer _ _ _ _ Hd) as [Ho _].
    destruct (dispatch_loadTrayTimer _ _ _ _ Hd) as [Htr _].
    repeat apply conj.
    + intros due Hn Hdue. now rewrite Ho, Hn, Hdue.
    + intros due Hn Hdue. now rewrite Htr, Hn, Hdue.
    + intros Hn Hr. now rewrite Ho, Hn, Hr.
    + intros Hn Hr. now rewrite Htr, Hn, Hr.
    + intros t doc Hn Hnone Hdue. rewrite Hn, Hnone in Ho.
      cbn [dispatch]. unfold isDue. rewrite Ho.
      destruct (Qle_bool_spec (t1 + LOAD_OVERLAY_DELAY_MS) t); [|lra].
      eexists. split; [reflexivity|].
      destruct (_loadOverlayState_inputs t doc (set_loadOverlayTimerId None st1)) as (K & _).
      exact K.
    + intros t doc Hn Hnone Hdue. rewrite Hn, Hnone in Htr.
      cbn [dispatch]. unfold isDue. rewrite Htr.
      destruct (Qle_bool_spec (t1 + LOAD_TRAY_DELAY_MS) t); [|lra].
      eexists. split; [reflexivity|].
      destruct (_loadTrayState_inputs t doc (set_loadTrayTimerId None st1)) as (_ & K & _).
      exact K.
  - intros file otherFile. apply (refersTo_iff STATE_FILE STATE_TMP_FILE).
  - intros file otherFile. apply (refersTo_iff TRAY_FILE TRAY_TMP_FILE).
Qed.

Lemma C4_one_reload_per_burst_witness :
  let o1 := Changed (Some "overlay.tmp"%string) (Some "overlay.json"%string) in
  let o2 := Changed (Some "overlay.json"%string) None in
  let rest := [(20, o2); (60, LoadOverlayTimeout ReadNotOk)] in
  let st' :=
    loadOverlayTimeout 60 ReadNotOk
      (changed 20 (Some "overlay.json"%string) None
         (changed 0 (Some "overlay.tmp"%string) (Some "overlay.json"%string) enabled)) in
  match _loadOverlayTimerId st' with
  | Some due => due = 0 + LOAD_OVERLAY_DELAY_MS
                /\ count isOverlayReload rest = 0%nat
  | None => count isOverlayReload rest = 1%nat
  end
  /\ each isOverlayReload (fun t => 0 + LOAD_OVERLAY_DELAY_MS <= t) rest.
Proof.
  intros o1 o2 rest st'.
  refine (proj1 (C4_one_reload_per_burst 0 o1 rest 0 enabled st' _) _ _ _).
  - vm_compute. reflexivity.
  - reflexivity.
  - reflexivity.
  - apply Forall_cons; [intros _; reflexivity|].
    apply Forall_cons; [intros H; discriminate H|].
    apply Forall_nil.
Defined.

(** C4 as stated fails: the timer is not re-armed by a signal that
    arrives while it is installed, and it does not wait for the burst to
    quiet.  After signals at 0 ms and 50 ms the timer is still due at
    60 ms, not at 110 ms, and a burst whose signals are each less than
    60 ms after the previous one (0, 50, 100 ms) is reloaded twice, at
    60 ms and at 160 ms. *)
Lemma C4_counterexample_timer_not_rearmed :
  let notify := Changed (Some "overlay.tmp"%string) (Some "overlay.json"%string) in
  let burst := [(0, notify); (50, notify); (60, LoadOverlayTimeout ReadNotOk);
                (100, notify); (160, LoadOverlayTimeout ReadNotOk)] in
  (exists st2 due,
      run 0 [(0, notify); (50, notify)] enabled = Some st2
      /\ _loadOverlayTimerId st2 = Some due
      /\ due == 60 /\ ~ due == 50 + LOAD_OVERLAY_DELAY_MS)
  /\ (exists st5, run 0 burst enabled = Some st5)
  /\ count overlayNotification burst = 3%nat
  /\ count isOverlayReload burst = 2%nat.
Proof.
  cbv zeta. repeat apply conj.
  - eexists. eexists. split; [vm_compute; reflexivity|].
    split; [reflexivity|]. split; [reflexivity|]. intros H. discriminate H.
  - eexists. vm_compute. reflexivity.
  - reflexivity.
  - reflexivity.
Qed.

(** ** ClickDisambiguator *)

(** No click pending and no press to come: nothing is spawned. *)
Lemma click_idle (rest : schedule) :
  forall (clock : Q) (st st' : ext),
    _clickTimerId st = None ->
    count isPress rest = 0%nat ->
    run clock rest st = Some st' ->
    _clickTimerId st' = None
    /\ spawned st' = spawned st
    /\ count isClickTimeout rest = 0%nat.
Proof.
  induction rest as [|[t o] rest IH]; intros clock st st' Ht Hp Hrun.
  - injection Hrun as <-. auto.
  - apply run_cons in Hrun. destruct Hrun as (Hle & st1 & Hd & Hrun).
    apply count_zero_cons in Hp. destruct Hp as [Hp Hrest].
    destruct (dispatch_click _ _ _ _ Hd) as (Ht1 & Hs1 & Hdue).
    rewrite Hp in Ht1, Hs1.
    destruct (isClickTimeout o) eqn:Ec.
    + destruct (Hdue eq_refl) as (d & Hsome & _). congruence.
    + rewrite Ht in Ht1. rewrite count_cons, Ec.
      destruct (IH t st1 st' Ht1 Hrest Hrun) as (H1 & H2 & H3).
      rewrite H2, Hs1. auto.
Qed.

(** A click pending until [due] and no press to come: the toggle is
    spawned once, when the timer fires, not before [due]. *)
Lemma click_pending (due : Q) (rest : schedule) :
  forall (clock : Q) (st st' : ext),
    _clickTimerId st = Some due ->
    count isPress rest = 0%nat ->
    run clock rest st = Some st' ->
    match _clickTimerId st' with
    | Some due' => due' = due /\ spawned st' = spawned st
                   /\ count isClickTimeout rest = 0%nat
    | None => spawned st' = Toggle :: spawned st
              /\ count isClickTimeout rest = 1%nat
    end
    /\ each isClickTimeout (fun t => due <= t) rest.
Proof.
  induction rest as [|[t o] rest IH]; intros clock st st' Ht Hp Hrun.
  - injection Hrun as <-. rewrite Ht. split; [auto | constructor].
  - apply run_cons in Hrun. destruct Hrun as (Hle & st1 & Hd & Hrun).
    apply count_zero_cons in Hp. destruct Hp as [Hp Hrest].
    destruct (dispatch_click _ _ _ _ Hd) as (Ht1 & Hs1 & Hdue).
    rewrite Hp in Ht1, Hs1. rewrite count_cons.
    destruct (isClickTimeout o) eqn:Ec.
    + destruct (Hdue eq_refl) as (d & Hsome & Hd_le).
      assert (d = due) by congruence. subst d.
      destruct (click_idle rest t st1 st' Ht1 Hrest Hrun) as (H1 & H2 & H3).
      rewrite H1, H2, H3, Hs1. split; [auto|].
      apply each_cons. split; [intros _; exact Hd_le|].
      apply count_zero_each. exact H3.
    + rewrite Ht in Ht1.
      destruct (IH t st1 st' Ht1 Hrest Hrun) as [H1 H2].
      rewrite Hs1 in H1. split; [exact H1|].
      apply each_cons. split; [|exact H2]. rewrite Ec. discriminate.
Qed.

(** While the window of a pending click has not elapsed, nothing is
    spawned and the click stays pending. *)
Lemma click_pending_early (due : Q) (mid : schedule) :
  forall (clock : Q) (st st' : ext),
    _clickTimerId st = Some due ->
    count isPress mid = 0%nat ->
    run clock mid st = Some st' ->
    endTime clock mid < due ->
    _clickTimerId st' = Some due
    /\ spawned st' = spawned st
    /\ count isClickTimeout mid = 0%nat.
Proof.
  induction mid as [|[t o] mid IH]; intros clock st st' Ht Hp Hrun Hend.
  - injection Hrun as <-. auto.
  - pose proof (run_times _ _ _ _ Hrun) as [_ Htimes].
    apply run_cons in Hrun. destruct Hrun as (Hle & st1 & Hd & Hrun).
    apply count_zero_cons in Hp. destruct Hp as [Hp Hrest].
    destruct (dispatch_click _ _ _ _ Hd) as (Ht1 & Hs1 & Hdue).
    rewrite Hp in Ht1, Hs1. rewrite count_cons.
    inversion Htimes as [|e l [_ Hhead] _]; subst. cbn [fst] in Hhead.
    destruct (isClickTimeout o) eqn:Ec.
    + destruct (Hdue eq_refl) as (d & Hsome & Hd_le).
      assert (d = due) by congruence. subst d. lra.
    + rewrite Ht in Ht1. cbn [endTime] in Hend.
      destruct (IH t st1 st' Ht1 Hrest Hrun Hend) as (H1 & H2 & H3).
      rewrite H2, Hs1. auto.
Qed.

(** C5. Starting with no click pending: after a lone press at [t1], with
    no other press, the toggle command is spawned exactly once, by the
    click timer, which fires no earlier than [t1] + 220 ms and can be
    dispatched at any time from then on; until it fires nothing is
    spawned.  After two presses, the second less than 220 ms after the
    first, the open-app command is spawned exactly once, the click timer
    never fires and no toggle is spawned.  After either outcome no click
    is pending. *)
Theorem C5_click_disambiguation :
  forall (t1 : Q) (st : ext),
    _clickTimerId st = None ->
    (forall clock rest st',
        count isPress rest = 0%nat ->
        run clock ((t1, PrimaryPress) :: rest) st = Some st' ->
        match _clickTimerId st' with
        | Some due => due = t1 + DOUBLE_CLICK_MS
                      /\ spawned st' = spawned st
                      /\ count isClickTimeout rest = 0%nat
        | None => spawned st' = Toggle :: spawned st
                  /\ count isClickTimeout rest = 1%nat
        end
        /\ each isClickTimeout (fun t => t1 + DOUBLE_CLICK_MS <= t) rest)
    /\ (forall t, t1 + DOUBLE_CLICK_MS <= t ->
        exists st', dispatch t ClickTimeout (_handlePrimaryClick t1 st) = Some st'
                    /\ spawned st' = Toggle :: spawned st
                    /\ _clickTimerId st' = None)
    /\ (forall clock t2 mid rest st',
           count isPress mid = 0%nat ->
           count isPress rest = 0%nat ->
           t2 < t1 + DOUBLE_CLICK_MS ->
           run clock ((t1, PrimaryPress) :: mid ++ (t2, PrimaryPress) :: rest) st
           = Some st' ->
           spawned st' = Show :: spawned st
           /\ _clickTimerId st' = None
           /\ count isClickTimeout (mid ++ rest) = 0%nat)
    /\ DOUBLE_CLICK_MS = 220.
Proof.
  intros t1 st Ht.
  split; [|split; [|split; [|reflexivity]]].
  - intros clock rest st' Hp Hrun.
    apply run_cons in Hrun. destruct Hrun as (Hle & st1 & Hd & Hrun).
    destruct (dispatch_click _ _ _ _ Hd) as (Ht1 & Hs1 & _).
    cbn [isPress] in Ht1, Hs1. rewrite Ht in Ht1, Hs1.
    destruct (click_pending (t1 + DOUBLE_CLICK_MS) rest t1 st1 st' Ht1 Hp Hrun)
      as [H1 H2].
    rewrite Hs1 in H1. split; assumption.
  - intros t Hdue. unfold _handlePrimaryClick. rewrite Ht.
    cbn [dispatch]. unfold isDue.
    assert (E : _clickTimerId (set_clickTimerId (Some (t1 + DOUBLE_CLICK_MS)) st)
                = Some (t1 + DOUBLE_CLICK_MS)) by (destruct st; reflexivity).
    rewrite E.
    destruct (Qle_bool_spec (t1 + DOUBLE_CLICK_MS) t); [|lra].
    eexists. split; [reflexivity|]. destruct st; split; reflexivity.
  - intros clock t2 mid rest st' Hmid Hrest Hlt Hrun.
    apply run_cons in Hrun. destruct Hrun as (Hle & st1 & Hd & Hrun).
    destruct (dispatch_click _ _ _ _ Hd) as (Ht1 & Hs1 & _).
    cbn [isPress] in Ht1, Hs1. rewrite Ht in Ht1, Hs1.
    apply run_app in Hrun. destruct Hrun as (stm & Hrun1 & Hrun2).
    apply run_cons in Hrun2. destruct Hrun2 as (Hend & st2 & Hd2 & Hrun2).
    assert (Hearly : endTime t1 mid < t1 + DOUBLE_CLICK_MS) by lra.
    destruct (click_pending_early _ mid t1 st1 stm Ht1 Hmid Hrun1 Hearly)
      as (Hm1 & Hm2 & Hm3).
    destruct (dispatch_click _ _ _ _ Hd2) as (Ht2 & Hs2 & _).
    cbn [isPress] in Ht2, Hs2. rewrite Hm1 in Ht2, Hs2.
    destruct (click_idle rest t2 st2 st' Ht2 Hrest Hrun2) as (H1 & H2 & H3).
    rewrite count_app, Hm3, H3, H2, Hs2, Hm2, Hs1. auto.
Qed.

Lemma C5_click_disambiguation_witness :
  let single := [(100, MeterTimeout); (220, ClickTimeout)] in
  let st1 := clickTimeout (meterTimeout 100 (_handlePrimaryClick 0 (_startMeter (-50) enabled))) in
  let st2 := _handlePrimaryClick 150 (meterTimeout 100 (_handlePrimaryClick 0 (_startMeter (-50) enabled))) in
  (match _clickTimerId st1 with
   | Some due => due = 0 + DOUBLE_CLICK_MS
                 /\ spawned st1 = []
                 /\ count isClickTimeout single = 0%nat
   | None => spawned st1 = [Toggle]
             /\ count isClickTimeout single = 1%nat
   end
   /\ each isClickTimeout (fun t => 0 + DOUBLE_CLICK_MS <= t) single)
  /\ (spawned st2 = [Show]
      /\ _clickTimerId st2 = None
      /\ count isClickTimeout ([(100, MeterTimeout)] ++ []) = 0%nat).
Proof.
  intros single st1 st2.
  assert (H0 : _clickTimerId (_startMeter (-50) enabled) = None) by reflexivity.
  split.
  - refine (proj1 (C5_click_disambiguation 0 (_startMeter (-50) enabled) H0)
                  0 single st1 _ _).
    + reflexivity.
    + vm_compute. reflexivity.
  - refine (proj1 (proj2 (proj2 (C5_click_disambiguation 0 (_startMeter (-50) enabled) H0)))
                  0 150 [(100, MeterTimeout)] [] st2 _ _ _ _).
    + reflexivity.
    + reflexivity.
    + reflexivity.
    + vm_compute. reflexivity.
Defined.

(** * Further properties of the extension *)

(** ** Invariants of the running extension *)

Lemma coherent_same (a b : ext) : sameOverlay a b -> coherent b -> coherent a.
Proof.
  unfold sameOverlay, coherent.
  intros (E1 & E2 & E3 & E4 & E5 & E6 & E7 & E8 & E9).
  rewrite E1, E2, E3, E4, E5, E6, E7, E8, E9. auto.
Qed.

Lemma sameOverlay_trans (a b c : ext) :
  sameOverlay a b -> sameOverlay b c -> sameOverlay a c.
Proof.
  unfold sameOverlay.
  intros (E1 & E2 & E3 & E4 & E5 & E6 & E7 & E8 & E9)
         (F1 & F2 & F3 & F4 & F5 & F6 & F7 & F8 & F9).
  rewrite E1, E2, E3, E4, E5, E6, E7, E8, E9. auto 10.
Qed.

Lemma _updateIndicator_overlay (now : Q) (st : ext) :
  sameOverlay (_updateIndicator now st) st.
Proof.
  destruct (_updateIndicator_shape now st) as (icon & timer & ->).
  destruct st. unfold sameOverlay. cbn. auto 10.
Qed.

Lemma _updateIndicator_recording_icon (now : Q) (st : ext) :
  indicatorIcon (_updateIndicator now st) = Recording <-> _recording st = true.
Proof.
  unfold _updateIndicator. destruct (_recording st).
  - destruct st; cbn; tauto.
  - repeat match goal with
           | |- context [if ?b then _ else _] => destruct b
           end;
      rewrite ?_scheduleStatusRefresh_icon, ?_clearStatusTimer_eq;
      destruct st; cbn; split; discriminate.
Qed.

Lemma changed_overlay (now : Q) (file otherFile : option string) (st : ext) :
  sameOverlay (changed now file otherFile st) st
  /\ indicatorIcon (changed now file otherFile st) = indicatorIcon st.
Proof.
  unfold changed, _scheduleLoadTray, _scheduleLoadOverlay.
  destruct (refersTo STATE_FILE STATE_TMP_FILE _);
    destruct (refersTo TRAY_FILE TRAY_TMP_FILE _);
    destruct st as [bars r s l lt tr er e rc hk m c p ck stt [lo|] [ltr|] ov tv tt ic sp];
    unfold sameOverlay; cbn; auto 12.
Qed.

Lemma _handlePrimaryClick_overlay (now : Q) (st : ext) :
  sameOverlay (_handlePrimaryClick now st) st
  /\ indicatorIcon (_handlePrimaryClick now st) = indicatorIcon st.
Proof.
  unfold _handlePrimaryClick, _clearClickTimer, _openApp.
  destruct st as [bars r s l lt tr er e rc hk m c p [ck|] stt lo ltr ov tv tt ic sp];
    unfold sameOverlay; cbn; auto 12.
Qed.

Lemma clickTimeout_overlay (st : ext) :
  sameOverlay (clickTimeout st) st
  /\ indicatorIcon (clickTimeout st) = indicatorIcon st.
Proof.
  unfold clickTimeout, _toggleRecording.
  destruct st; unfold sameOverlay; cbn; auto 12.
Qed.

Lemma overlayRead_level_bounds (doc : document) :
  0 <= level (overlayRead doc) <= 1.
Proof.
  unfold overlayRead.
  destruct doc as [| | |data]; cbn; try lra.
  destruct data; cbn; try lra.
  destruct (isFinite (own props "level")); cbn; [apply clamp_bounds | lra].
Qed.

Lemma overlayLocals_level_bounds (now : Q) (doc : document) :
  0 <= level (overlayLocals now doc) <= 1.
Proof.
  unfold overlayLocals. cbv zeta.
  destruct (isStale now (overlayRead doc)); cbn [level]; [lra|].
  apply overlayRead_level_bounds.
Qed.

Lemma smooth_bounds (target lvl : Q) :
  0 <= target <= 1 -> 0 <= lvl <= 1 -> 0 <= smooth target lvl <= 1.
Proof.
  intros Ht Hl. destruct (Qlt_le_dec lvl target) as [H|H].
  - rewrite (smooth_rising _ _ H). lra.
  - rewrite (smooth_falling _ _ H). lra.
Qed.

Lemma _hideOverlay_icon (now : Q) (st : ext) :
  indicatorIcon (_hideOverlay now st) <> Recording.
Proof.
  intros H.
  destruct (_hideOverlay_fields now st) as (R & _).
  assert (E : exists s, _hideOverlay now st = _updateIndicator now s)
    by (eexists; reflexivity).
  destruct E as (s & E). rewrite E in H, R.
  apply _updateIndicator_recording_icon in H.
  destruct (_updateIndicator_overlay now s) as (_ & E2 & _).
  congruence.
Qed.

(** A reload of the recording document establishes the invariant from
    any state whose bars and smoothed level are in range. *)
Lemma _loadOverlayState_consistent (now : Q) (doc : document) (st : ext) :
  List.length (_bars st) = BAR_COUNT ->
  Forall heightOk (_bars st) ->
  0 <= _level st <= 1 ->
  consistent (_loadOverlayState now doc st).
Proof.
  intros Hlen Hbars Hlvl.
  pose proof (overlayLocals_level_bounds now doc) as Hb.
  unfold _loadOverlayState.
  destruct (recording (overlayLocals now doc)).
  - destruct (_showOverlay_fields now (startedAtMs (overlayLocals now doc))
                (set_levelTarget (level (overlayLocals now doc)) st))
      as (H1 & H2 & H3 & H4 & H5 & H6 & H7 & H8 & H9).
    assert (E3 : _level (set_levelTarget (level (overlayLocals now doc)) st) = _level st)
      by (destruct st; reflexivity).
    assert (E4 : _levelTarget (set_levelTarget (level (overlayLocals now doc)) st)
                 = level (overlayLocals now doc)) by (destruct st; reflexivity).
    assert (E8 : _bars (set_levelTarget (level (overlayLocals now doc)) st) = _bars st)
      by (destruct st; reflexivity).
    unfold consistent, coherent.
    rewrite H1, H2, H3, H4, H5, H6, H7, H8, H9, E3, E4, E8.
    repeat apply conj; auto; try discriminate; try tauto.
    match goal with
    | |- context [match ?x with Some _ => _ | None => _ end] => destruct x
    end; reflexivity.
  - destruct (_hideOverlay_fields now
                (set_levelTarget (level (overlayLocals now doc)) st))
      as (H1 & H2 & H3 & H4 & H5 & H6 & H7 & H8 & H9).
    pose proof (_hideOverlay_icon now
                  (set_levelTarget (level (overlayLocals now doc)) st)) as Hicon.
    assert (E8 : _bars (set_levelTarget (level (overlayLocals now doc)) st) = _bars st)
      by (destruct st; reflexivity).
    unfold consistent, coherent.
    rewrite H1, H2, H3, H4, H5, H6, H7, H8, H9, E8.
    repeat apply conj; auto; try discriminate; try lra; try tauto.
Qed.

Lemma _loadTrayState_overlay (now : Q) (doc : document) (st : ext) :
  sameOverlay (_loadTrayState now doc st) st.
Proof.
  unfold _loadTrayState.
  eapply sameOverlay_trans; [apply _updateIndicator_overlay|].
  destruct st. unfold sameOverlay. cbn. auto 10.
Qed.

Lemma _loadTrayState_consistent (now : Q) (doc : document) (st : ext) :
  consistent st -> consistent (_loadTrayState now doc st).
Proof.
  intros [Hc Hi]. split.
  - eapply coherent_same; [apply _loadTrayState_overlay | exact Hc].
  - destruct (_loadTrayState_overlay now doc st) as (_ & E & _). rewrite E.
    unfold _loadTrayState. rewrite _updateIndicator_recording_icon.
    destruct st; cbn; tauto.
Qed.

Lemma meterTimeout_consistent (now : Q) (st : ext) :
  isDue now (_meterTimerId st) = true ->
  consistent st -> consistent (meterTimeout now st).
Proof.
  intros Hdue [(H1 & H2 & H3 & H4 & H5 & H6 & H7 & H8 & H9) Hi].
  assert (Hrec : _recording st = true).
  { rewrite <- H2. unfold isDue in Hdue. destruct (_meterTimerId st); [reflexivity|discriminate]. }
  pose proof (smooth_bounds _ _ H7 H6) as Hs.
  pose proof (forEachBar_bounds
                (Math_max 0 (Math_min 1 (smooth (_levelTarget st) (_level st))))
                (_bars st) (clamp_bounds _) 0%nat) as Hb.
  pose proof (forEachBar_length
                (Math_max 0 (Math_min 1 (smooth (_levelTarget st) (_level st))))
                (_bars st) 0%nat) as Hl.
  unfold meterTimeout.
  destruct st as [bars r s l lt tr er e rc hk m c p ck stt lo ltr ov tv tt ic sp].
  cbn in *. subst r.
  unfold consistent, coherent. cbn.
  repeat apply conj; auto; try discriminate; try congruence; try tauto.
Qed.

Lemma clockTimeout_consistent (now : Q) (st : ext) :
  isDue now (_clockTimerId st) = true ->
  consistent st -> consistent (clockTimeout now st).
Proof.
  intros Hdue [(H1 & H2 & H3 & H4 & H5 & H6 & H7 & H8 & H9) Hi].
  assert (Hrec : _recording st = true).
  { apply H3. unfold isDue in Hdue. destruct (_clockTimerId st); [reflexivity|discriminate]. }
  unfold clockTimeout, _updateClock.
  destruct st as [bars r s l lt tr er e rc hk m c p ck stt lo ltr ov tv tt ic sp].
  cbn in *. subst r.
  unfold consistent, coherent.
  destruct s as [q|]; [destruct (Qiszero q)|]; cbn;
    repeat apply conj; auto; try discriminate; try tauto.
Qed.

Lemma set_loadOverlayTimerId_consistent (v : option Q) (st : ext) :
  consistent st -> consistent (set_loadOverlayTimerId v st).
Proof. destruct st. unfold consistent, coherent. cbn. tauto. Qed.

Lemma set_pollTimerId_consistent (v : option Q) (st : ext) :
  consistent st -> consistent (set_pollTimerId v st).
Proof. destruct st. unfold consistent, coherent. cbn. tauto. Qed.

Lemma set_loadTrayTimerId_consistent (v : option Q) (st : ext) :
  consistent st -> consistent (set_loadTrayTimerId v st).
Proof. destruct st. unfold consistent, coherent. cbn. tauto. Qed.

Lemma set_statusTimerId_consistent (v : option Q) (st : ext) :
  consistent st -> consistent (set_statusTimerId v st).
Proof. destruct st. unfold consistent, coherent. cbn. tauto. Qed.

Lemma consistent_ranges (st : ext) :
  consistent st ->
  List.length (_bars st) = BAR_COUNT /\ Forall heightOk (_bars st)
  /\ 0 <= _level st <= 1.
Proof.
  intros [(H1 & H2 & H3 & H4 & H5 & H6 & H7 & H8 & H9) Hi]. auto.
Qed.

Lemma dispatch_consistent (now : Q) (o : occurrence) (st st' : ext) :
  consistent st -> dispatch now o st = Some st' -> consistent st'.
Proof.
  intros Hc.
  destruct o; cbn [dispatch];
    try match goal with
        | |- context [isDue ?n ?t] => destruct (isDue n t) eqn:Hdue; [|discriminate]
        end;
    intros [= <-].
  - destruct Hc as [Hc Hi]. destruct (changed_overlay now file otherFile st) as [Hs Hic].
    split; [eapply coherent_same; eassumption|].
    destruct Hs as (_ & E & _). rewrite Hic, E. exact Hi.
  - destruct Hc as [Hc Hi]. destruct (_handlePrimaryClick_overlay now st) as [Hs Hic].
    split; [eapply coherent_same; eassumption|].
    destruct Hs as (_ & E & _). rewrite Hic, E. exact Hi.
  - unfold loadOverlayTimeout.
    apply (set_loadOverlayTimerId_consistent None) in Hc.
    destruct (consistent_ranges _ Hc) as (A & B & C).
    apply _loadOverlayState_consistent; assumption.
  - unfold loadTrayTimeout. apply _loadTrayState_consistent.
    apply set_loadTrayTimerId_consistent. exact Hc.
  - apply meterTimeout_consistent; assumption.
  - apply clockTimeout_consistent; assumption.
  - destruct Hc as [Hc Hi]. destruct (clickTimeout_overlay st) as [Hs Hic].
    split; [eapply coherent_same; eassumption|].
    destruct Hs as (_ & E & _). rewrite Hic, E. exact Hi.
  - unfold statusTimeout.
    apply (set_statusTimerId_consistent None) in Hc.
    destruct Hc as [Hc Hi]. split.
    + eapply coherent_same; [apply _updateIndicator_overlay | exact Hc].
    + destruct (_updateIndicator_overlay now (set_statusTimerId None st)) as (_ & E & _).
      rewrite E. apply _updateIndicator_recording_icon.
  - unfold pollTimeout. apply set_pollTimerId_consistent.
    apply _loadTrayState_consistent.
    destruct (consistent_ranges _ Hc) as (A & B & C).
    apply _loadOverlayState_consistent; assumption.
Qed.

Lemma run_consistent (s : schedule) :
  forall (clock : Q) (st st' : ext),
    consistent st -> run clock s st = Some st' -> consistent st'.
Proof.
  induction s as [|[t o] s IH]; intros clock st st' Hc Hrun.
  - injection Hrun as <-. exact Hc.
  - apply run_cons in Hrun. destruct Hrun as (_ & st1 & Hd & Hrun).
    eapply IH; [|exact Hrun]. eapply dispatch_consistent; eassumption.
Qed.

Lemma enable_consistent (monitorThrows : bool) (now : Q) (overlayDoc trayDoc : document) :
  consistent (fields (enable monitorThrows now overlayDoc trayDoc)).
Proof.
  unfold enable, _watchState. cbv zeta.
  destruct monitorThrows; cbn [fields];
    apply _loadTrayState_consistent; apply _loadOverlayState_consistent;
    try reflexivity; try (cbn; lra);
    repeat constructor; discriminate.
Qed.

(** X1. In every state that the extension reaches after [enable], by
    any schedule of signals and timeouts: the overlay is visible exactly
    while recording; the meter timer is installed exactly while
    recording; the clock timer is installed only while recording; the
    clock label is visible exactly when there is a usable start time;
    while not recording there is no start time and both levels are zero;
    and the panel icon is the recording icon exactly while recording. *)
Theorem X1_overlay_follows_recording :
  forall (monitorThrows : bool) (now : Q) (overlayDoc trayDoc : document)
         (clock : Q) (s : schedule) (st' : ext),
    run clock s (fields (enable monitorThrows now overlayDoc trayDoc)) = Some st' ->
    overlayVisible st' = _recording st'
    /\ isSome (_meterTimerId st') = _recording st'
    /\ (isSome (_clockTimerId st') = true -> _recording st' = true)
    /\ timeLabelVisible st' = truthyNum (_startedAtMs st')
    /\ (_recording st' = false ->
        _startedAtMs st' = None /\ _level st' = 0 /\ _levelTarget st' = 0)
    /\ (indicatorIcon st' = Recording <-> _recording st' = true).
Proof.
  intros monitorThrows now overlayDoc trayDoc clock s st' Hrun.
  pose proof (run_consistent s clock _ st'
                (enable_consistent monitorThrows now overlayDoc trayDoc) Hrun)
    as [(H1 & H2 & H3 & H4 & H5 & _) Hi].
  auto 10.
Qed.

Lemma X1_overlay_follows_recording_witness :
  let doc := Parsed (VObject [("recording"%string, VBool true);
                              ("level"%string, VNumber (Finite 0.5));
                              ("updated_at_ms"%string, VNumber (Finite 1000))]) in
  let st' := loadOverlayTimeout 2300 ReadThrows
               (changed 2200 (Some "overlay.json"%string) None
                  (meterTimeout 1150 (fields (enable false 1000 doc ReadNotOk)))) in
  overlayVisible st' = _recording st'
  /\ isSome (_meterTimerId st') = _recording st'
  /\ (isSome (_clockTimerId st') = true -> _recording st' = true)
  /\ timeLabelVisible st' = truthyNum (_startedAtMs st')
  /\ (_recording st' = false ->
      _startedAtMs st' = None /\ _level st' = 0 /\ _levelTarget st' = 0)
  /\ (indicatorIcon st' = Recording <-> _recording st' = true).
Proof.
  intros doc st'.
  refine (X1_overlay_follows_recording false 1000 doc ReadNotOk 1000
            [(1150, MeterTimeout);
             (2200, Changed (Some "overlay.json"%string) None);
             (2300, LoadOverlayTimeout ReadThrows)] st' _).
  vm_compute. reflexivity.
Defined.

(** X2. In every state that the extension reaches after [enable], the
    smoothed level and the target level lie in [0,1], there are
    [BAR_COUNT] bars, and every bar height lies between the minimum and
    the maximum height; the clamp of the next meter tick therefore leaves
    the smoothed level as it is. *)
Theorem X2_levels_and_bars_stay_in_range :
  forall (monitorThrows : bool) (now : Q) (overlayDoc trayDoc : document)
         (clock : Q) (s : schedule) (st' : ext),
    run clock s (fields (enable monitorThrows now overlayDoc trayDoc)) = Some st' ->
    0 <= _level st' <= 1
    /\ 0 <= _levelTarget st' <= 1
    /\ List.length (_bars st') = BAR_COUNT
    /\ Forall (fun h => (BAR_MIN_HEIGHT <= h <= BAR_MAX_HEIGHT)%Z) (_bars st')
    /\ Math_max 0 (Math_min 1 (smooth (_levelTarget st') (_level st')))
       == smooth (_levelTarget st') (_level st').
Proof.
  intros monitorThrows now overlayDoc trayDoc clock s st' Hrun.
  pose proof (run_consistent s clock _ st'
                (enable_consistent monitorThrows now overlayDoc trayDoc) Hrun)
    as [(_ & _ & _ & _ & _ & H6 & H7 & H8 & H9) _].
  pose proof (smooth_bounds _ _ H7 H6) as [Hlo Hhi].
  repeat apply conj; auto; try apply H6; try apply H7.
  unfold Math_max, Math_min.
  destruct (Qle_bool_spec 1 (smooth (_levelTarget st') (_level st')));
    match goal with |- context [Qle_bool ?a ?b] => destruct (Qle_bool_spec a b) end;
    lra.
Qed.

Lemma X2_levels_and_bars_stay_in_range_witness :
  let doc := Parsed (VObject [("recording"%string, VBool true);
                              ("level"%string, VNumber (Finite 7));
                              ("updated_at_ms"%string, VNumber (Finite 1000))]) in
  let st' := meterTimeout 1300 (meterTimeout 1150 (fields (enable true 1000 doc ReadNotOk))) in
  0 <= _level st' <= 1
  /\ 0 <= _levelTarget st' <= 1
  /\ List.length (_bars st') = BAR_COUNT
  /\ Forall (fun h => (BAR_MIN_HEIGHT <= h <= BAR_MAX_HEIGHT)%Z) (_bars st')
  /\ Math_max 0 (Math_min 1 (smooth (_levelTarget st') (_level st')))
     == smooth (_levelTarget st') (_level st').
Proof.
  intros doc st'.
  refine (X2_levels_and_bars_stay_in_range true 1000 doc ReadNotOk 1000
            [(1150, MeterTimeout); (1300, MeterTimeout)] st' _).
  vm_compute. reflexivity.
Defined.

(** ** Watching and polling *)

Lemma _updateIndicator_poll (now : Q) (st : ext) :
  _pollTimerId (_updateIndicator now st) = _pollTimerId st.
Proof.
  destruct (_updateIndicator_shape now st) as (icon & timer & ->).
  destruct st; reflexivity.
Qed.

Lemma _loadOverlayState_poll (now : Q) (doc : document) (st : ext) :
  _pollTimerId (_loadOverlayState now doc st) = _pollTimerId st.
Proof.
  unfold _loadOverlayState, _showOverlay, _hideOverlay.
  destruct (recording (overlayLocals now doc)); rewrite _updateIndicator_poll.
  - unfold _startClock, _updateClock, _startMeter.
    destruct st as [bars r s l lt tr er e rc hk [m|] [c|] p ck stt lo ltr ov tv tt ic sp];
      destruct (startedAtMs (overlayLocals now doc)) as [q|]; cbn;
      try destruct (Qiszero q); reflexivity.
  - unfold _stopClock, _stopMeter.
    destruct st as [bars r s l lt tr er e rc hk [m|] [c|] p ck stt lo ltr ov tv tt ic sp];
      reflexivity.
Qed.

Lemma _loadTrayState_poll (now : Q) (doc : document) (st : ext) :
  _pollTimerId (_loadTrayState now doc st) = _pollTimerId st.
Proof.
  unfold _loadTrayState. rewrite _updateIndicator_poll. destruct st; reflexivity.
Qed.

(** Only the poll callback needs the polling timer, and no dispatch
    installs or removes it. *)
Lemma dispatch_poll (now : Q) (o : occurrence) (st st' : ext) :
  dispatch now o st = Some st' ->
  isSome (_pollTimerId st') = isSome (_pollTimerId st)
  /\ (forall overlayDoc trayDoc,
         o = PollTimeout overlayDoc trayDoc -> isSome (_pollTimerId st) = true).
Proof.
  destruct o; cbn [dispatch];
    try match goal with
        | |- context [isDue ?n ?t] => destruct (isDue n t) eqn:Hdue; [|discriminate]
        end;
    intros [= <-]; (split; [|try discriminate]).
  - unfold changed, _scheduleLoadTray, _scheduleLoadOverlay.
    destruct (refersTo STATE_FILE STATE_TMP_FILE _);
      destruct (refersTo TRAY_FILE TRAY_TMP_FILE _);
      destruct st as [bars r s l lt tr er e rc hk m c p ck stt [lo|] [ltr|] ov tv tt ic sp];
      reflexivity.
  - unfold _handlePrimaryClick, _clearClickTimer, _openApp.
    destruct st as [bars r s l lt tr er e rc hk m c p [ck|] stt lo ltr ov tv tt ic sp];
      reflexivity.
  - unfold loadOverlayTimeout. rewrite _loadOverlayState_poll. destruct st; reflexivity.
  - unfold loadTrayTimeout. rewrite _loadTrayState_poll. destruct st; reflexivity.
  - unfold meterTimeout. destruct st; reflexivity.
  - unfold clockTimeout, _updateClock.
    destruct st as [bars r [q|] l lt tr er e rc hk m c p ck stt lo ltr ov tv tt ic sp];
      cbn; try destruct (Qiszero q); reflexivity.
  - unfold clickTimeout, _toggleRecording. destruct st; reflexivity.
  - unfold statusTimeout. rewrite _updateIndicator_poll. destruct st; reflexivity.
  - unfold pollTimeout.
    assert (E : forall v s, isSome (_pollTimerId (set_pollTimerId (Some v) s)) = true)
      by (intros v s; destruct s; reflexivity).
    rewrite E. unfold isDue in Hdue.
    destruct (_pollTimerId st); [reflexivity|discriminate].
  - intros od td _. unfold isDue in Hdue.
    destruct (_pollTimerId st); [reflexivity|discriminate].
Qed.

Lemma run_poll (s : schedule) :
  forall (clock : Q) (st st' : ext),
    run clock s st = Some st' ->
    isSome (_pollTimerId st') = isSome (_pollTimerId st)
    /\ (isSome (_pollTimerId st) = false ->
        Forall (fun e => forall od td, snd e <> PollTimeout od td) s).
Proof.
  induction s as [|[t o] s IH]; intros clock st st' Hrun.
  - injection Hrun as <-. split; [reflexivity | constructor].
  - apply run_cons in Hrun. destruct Hrun as (_ & st1 & Hd & Hrun).
    destruct (dispatch_poll _ _ _ _ Hd) as [E Hp].
    destruct (IH t st1 st' Hrun) as [E' Hall].
    split; [congruence|].
    intros Hnone. constructor.
    + cbn [snd]. intros od td ->. specialize (Hp od td eq_refl). congruence.
    + apply Hall. congruence.
Qed.



Lemma set_pollTimerId_overlay (v : option Q) (st : ext) :
  sameOverlay (set_pollTimerId v st) st.
Proof. destruct st. unfold sameOverlay. cbn. auto 10. Qed.



(** Apart from the reload of the recording document and the poll, no
    dispatch changes whether the extension is recording. *)
Lemma dispatch_recording (now : Q) (o : occurrence) (st st' : ext) :
  dispatch now o st = Some st' ->
  isOverlayReload o = false ->
  (forall od td, o <> PollTimeout od td) ->
  _recording st' = _recording st
  /\ overlayVisible st' = overlayVisible st
  /\ _startedAtMs st' = _startedAtMs st.
Proof.
  destruct o; cbn [dispatch isOverlayReload];
    try match goal with
        | |- context [isDue ?n ?t] => destruct (isDue n t) eqn:Hdue; [|discriminate]
        end;
    intros [= <-] Hr Hp; try discriminate.
  - destruct (changed_overlay now file otherFile st) as [(A & B & _ & _ & _ & C & _) _]. auto.
  - destruct (_handlePrimaryClick_overlay now st) as [(A & B & _ & _ & _ & C & _) _]. auto.
  - unfold loadTrayTimeout.
    destruct (_loadTrayState_overlay now doc (set_loadTrayTimerId None st))
      as (A & B & _ & _ & _ & C & _).
    rewrite A, B, C. destruct st; auto.
  - unfold meterTimeout. destruct st; auto.
  - unfold clockTimeout, _updateClock.
    destruct st as [bars r [q|] l lt tr er e rc hk m c p ck stt lo ltr ov tv tt ic sp];
      cbn; try destruct (Qiszero q); auto.
  - destruct (clickTimeout_overlay st) as [(A & B & _ & _ & _ & C & _) _]. auto.
  - unfold statusTimeout.
    destruct (_updateIndicator_overlay now (set_statusTimerId None st))
      as (A & B & _ & _ & _ & C & _).
    rewrite A, B, C. destruct st; auto.
  - exfalso. eapply Hp. reflexivity.
Qed.

(** X5. Staleness is examined only when the recording document is
    loaded.  With the directory monitor in use (no polling timer) and no
    reload pending, as long as no [changed] signal names the recording
    document, nothing that is dispatched, however late, changes the
    recording state: the overlay stays as it is and no reload runs. *)
Theorem X5_no_notification_no_change :
  forall (clock : Q) (s : schedule) (st st' : ext),
    _loadOverlayTimerId st = None ->
    _pollTimerId st = None ->
    count overlayNotification s = 0%nat ->
    run clock s st = Some st' ->
    _recording st' = _recording st
    /\ overlayVisible st' = overlayVisible st
    /\ _startedAtMs st' = _startedAtMs st
    /\ count isOverlayReload s = 0%nat.
Proof.
  intros clock s. revert clock.
  induction s as [|[t o] s IH]; intros clock st st' Hl Hp Hn Hrun.
  - injection Hrun as <-. auto.
  - apply run_cons in Hrun. destruct Hrun as (_ & st1 & Hd & Hrun).
    apply count_zero_cons in Hn. destruct Hn as [Hn Hns].
    destruct (dispatch_loadOverlayTimer _ _ _ _ Hd) as [Ht Hdue].
    destruct (dispatch_poll _ _ _ _ Hd) as [Epoll Hpoll].
    rewrite Hn in Ht.
    assert (Hr : isOverlayReload o = false).
    { destruct (isOverlayReload o) eqn:E; [|reflexivity].
      destruct (Hdue eq_refl) as (d & Hsome & _). congruence. }
    rewrite Hr, Hl in Ht.
    assert (Hnp : forall od td, o <> PollTimeout od td).
    { intros od td ->. specialize (Hpoll od td eq_refl). rewrite Hp in Hpoll. discriminate. }
    assert (Hp1 : _pollTimerId st1 = None).
    { rewrite Hp in Epoll. destruct (_pollTimerId st1); [discriminate|reflexivity]. }
    destruct (dispatch_recording _ _ _ _ Hd Hr Hnp) as (A & B & C).
    destruct (IH t st1 st' Ht Hp1 Hns Hrun) as (A' & B' & C' & D').
    rewrite count_cons, Hr. repeat apply conj; try congruence.
    cbn. exact D'.
Qed.

Lemma X5_no_notification_no_change_witness :
  let doc := Parsed (VObject [("recording"%string, VBool true);
                              ("updated_at_ms"%string, VNumber (Finite 1000))]) in
  let st := fields (enable false 1000 doc ReadNotOk) in
  _recording (meterTimeout 900000 (meterTimeout 1150 st)) = true.
Proof.
  intros doc st.
  refine (proj1 (X5_no_notification_no_change 1000
                   [(1150, MeterTimeout); (900000, MeterTimeout)] st _ _ _ _ _)).
  - reflexivity.
  - reflexivity.
  - reflexivity.
  - vm_compute. reflexivity.
Defined.

(** ** Reloads while recording *)

Lemma _updateIndicator_clock (now : Q) (st : ext) :
  _clockTimerId (_updateIndicator now st) = _clockTimerId st.
Proof. apply _updateIndicator_overlay. Qed.

Lemma _showOverlay_clock (now : Q) (started : option Q) (st : ext) (due : Q) :
  _clockTimerId st = Some due ->
  _clockTimerId (_showOverlay now started st) = Some due.
Proof.
  intros H. unfold _showOverlay. rewrite _updateIndicator_clock.
  unfold _startClock, _updateClock, _startMeter.
  destruct st as [bars r s l lt tr er e rc hk [m|] c p ck stt lo ltr ov tv tt ic sp];
    cbn in H; subst c;
    destruct started as [q|]; cbn; try destruct (Qiszero q); reflexivity.
Qed.

(** X6. The meter and the clock run at their own pace however often the
    recording document is reloaded: a reload that reads recording while
    the meter timer is installed leaves that timer, the smoothed level
    and the bars as they are and only replaces the target level by the
    level read, clamped to [0,1]; a clock timer that is installed is
    kept as well. *)
Theorem X6_reload_does_not_restart_meter :
  forall (now due : Q) (doc : document) (st : ext),
    _meterTimerId st = Some due ->
    recording (overlayLocals now doc) = true ->
    _meterTimerId (_loadOverlayState now doc st) = Some due
    /\ _level (_loadOverlayState now doc st) = _level st
    /\ _bars (_loadOverlayState now doc st) = _bars st
    /\ _levelTarget (_loadOverlayState now doc st) = level (overlayLocals now doc)
    /\ 0 <= _levelTarget (_loadOverlayState now doc st) <= 1
    /\ (forall c, _clockTimerId st = Some c ->
                  _clockTimerId (_loadOverlayState now doc st) = Some c).
Proof.
  intros now due doc st Hm Hr.
  unfold _loadOverlayState. rewrite Hr.
  destruct (_showOverlay_fields now (startedAtMs (overlayLocals now doc))
              (set_levelTarget (level (overlayLocals now doc)) st))
    as (_ & _ & H3 & H4 & _ & _ & H7 & H8 & _).
  assert (E : forall v, _meterTimerId (set_levelTarget v st) = _meterTimerId st
                        /\ _level (set_levelTarget v st) = _level st
                        /\ _bars (set_levelTarget v st) = _bars st
                        /\ _levelTarget (set_levelTarget v st) = v
                        /\ _clockTimerId (set_levelTarget v st) = _clockTimerId st)
    by (intros v; destruct st; repeat split).
  destruct (E (level (overlayLocals now doc))) as (E1 & E2 & E3 & E4 & E5).
  rewrite H3, H4, H7, H8, E1, E2, E3, E4, Hm.
  repeat apply conj; try reflexivity; try apply overlayLocals_level_bounds.
  intros c Hc. apply _showOverlay_clock. rewrite E5. exact Hc.
Qed.

Lemma X6_reload_does_not_restart_meter_witness :
  let doc := Parsed (VObject [("recording"%string, VBool true);
                              ("level"%string, VNumber (Finite 0.25));
                              ("updated_at_ms"%string, VNumber (Finite 1000))]) in
  let st := meterTimeout 1150 (fields (enable false 1000 doc ReadNotOk)) in
  _meterTimerId (_loadOverlayState 1200 doc st) = Some (1150 + METER_INTERVAL_MS).
Proof.
  intros doc st.
  refine (proj1 (X6_reload_does_not_restart_meter 1200 _ doc st _ _)).
  - reflexivity.
  - reflexivity.
Defined.

(** ** How long a flash lasts *)

Lemma _updateIndicator_tray_fields (now : Q) (st : ext) :
  _recording (_updateIndicator now st) = _recording st
  /\ _lastErrorAtMs (_updateIndicator now st) = _lastErrorAtMs st
  /\ _lastTranscriptAtMs (_updateIndicator now st) = _lastTranscriptAtMs st.
Proof.
  destruct (_updateIndicator_shape now st) as (icon & timer & ->).
  destruct st; repeat split.
Qed.

Lemma flashing_false_after (t e window : Q) :
  e + window <= t -> flashing t (Some e) window = false.
Proof.
  intros H. unfold flashing.
  destruct (Qltb_spec (t - e) window); [lra|]. apply andb_false_r.
Qed.



(** X8. [_updateIndicator] never leaves a status timer that is already
    due: while not recording, whenever it leaves a status timer
    installed, that timer is due strictly later than the time of the
    update; and when it shows the idle icon no status timer is left. *)
Theorem X8_status_timer_is_in_the_future :
  forall (now : Q) (st : ext),
    _recording st = false ->
    (forall due, _statusTimerId (_updateIndicator now st) = Some due -> now < due)
    /\ (indicatorIcon (_updateIndicator now st) = Idle ->
        _statusTimerId (_updateIndicator now st) = None).
Proof.
  intros now st Hr.
  assert (Hsched : forall s due,
             _statusTimerId (_scheduleStatusRefresh now s) = Some due -> now < due).
  { intros s due. unfold _scheduleStatusRefresh. rewrite _clearStatusTimer_eq.
    destruct (nextDelay now (set_statusTimerId None s)) as [d|].
    - destruct (Qle_bool_spec d 0).
      + destruct s; cbn; discriminate.
      + destruct s; cbn. intros [= <-]. lra.
    - destruct s; cbn; discriminate. }
  unfold _updateIndicator. rewrite Hr.
  destruct (flashing now (_lastErrorAtMs st) ERROR_FLASH_MS).
  - split; [apply Hsched|].
    rewrite _scheduleStatusRefresh_icon. destruct st; cbn; discriminate.
  - destruct (flashing now (_lastTranscriptAtMs st) SUCCESS_FLASH_MS).
    + split; [apply Hsched|].
      rewrite _scheduleStatusRefresh_icon. destruct st; cbn; discriminate.
    + rewrite _clearStatusTimer_eq. split.
      * intros due. destruct st; cbn; discriminate.
      * intros _. destruct st; reflexivity.
Qed.

Lemma X8_status_timer_is_in_the_future_witness :
  6000 < 6000 + (SUCCESS_FLASH_MS - (6000 - 5000)).
Proof.
  refine (proj1 (X8_status_timer_is_in_the_future 6000
                   (set_lastTranscriptAtMs (Some 5000) enabled) _) _ _).
  - reflexivity.
  - reflexivity.
Defined.

(** ** The bars of the meter *)

Lemma Math_round_le (x y : Q) : x <= y -> (Math_round x <= Math_round y)%Z.
Proof.
  intros H. unfold Math_round. apply Qfloor_resp_le. lra.
Qed.

Lemma forEachBar_monotone (c1 c2 : Q) :
  c1 <= c2 ->
  forall (bars1 bars2 : list Z) (index : nat),
    List.length bars1 = List.length bars2 ->
    Forall2 Z.le (forEachBar c1 index bars1) (forEachBar c2 index bars2).
Proof.
  intros Hc. induction bars1 as [|b1 rest1 IH]; intros [|b2 rest2] index Hlen;
    cbn [forEachBar]; try discriminate.
  - constructor.
  - constructor.
    + apply Math_round_le.
      destruct (weight_bounds index) as [Hw _].
      change (inject_Z (BAR_MAX_HEIGHT - BAR_MIN_HEIGHT)) with 16.
      assert (c1 * nth (index mod List.length BAR_WEIGHTS) BAR_WEIGHTS 0
              <= c2 * nth (index mod List.length BAR_WEIGHTS) BAR_WEIGHTS 0)
        by (apply Qmult_le_compat_r; lra).
      lra.
    + apply IH. cbn in Hlen. congruence.
Qed.

Lemma clamp_monotone (x y : Q) :
  x <= y -> Math_max 0 (Math_min 1 x) <= Math_max 0 (Math_min 1 y).
Proof.
  intros H. unfold Math_max, Math_min.
  destruct (Qle_bool_spec 1 x); destruct (Qle_bool_spec 1 y);
    repeat match goal with
           | |- context [Qle_bool ?a ?b] => destruct (Qle_bool_spec a b)
           end; lra.
Qed.

(** X9. A higher smoothed level never lowers a bar: of two meter ticks
    on the same number of bars, the one that arrives at the higher
    smoothed level sets every bar at least as high as the other. *)
Theorem X9_bars_grow_with_the_level :
  forall (now1 now2 : Q) (st1 st2 : ext),
    List.length (_bars st1) = List.length (_bars st2) ->
    _level (meterTimeout now1 st1) <= _level (meterTimeout now2 st2) ->
    Forall2 Z.le (_bars (meterTimeout now1 st1)) (_bars (meterTimeout now2 st2)).
Proof.
  intros now1 now2 st1 st2 Hlen Hlvl.
  destruct (meterTimeout_level now1 st1) as [E1 _].
  destruct (meterTimeout_level now2 st2) as [E2 _].
  rewrite E1, E2 in Hlvl.
  assert (B : forall now st,
             _bars (meterTimeout now st)
             = forEachBar (Math_max 0 (Math_min 1 (smooth (_levelTarget st) (_level st))))
                          0 (_bars st)) by (intros now st; destruct st; reflexivity).
  rewrite !B. apply forEachBar_monotone; [|exact Hlen].
  apply clamp_monotone. exact Hlvl.
Qed.

Lemma X9_bars_grow_with_the_level_witness :
  Forall2 Z.le
          (_bars (meterTimeout 150 (set_levelTarget 0.2 enabled)))
          (_bars (meterTimeout 150 (set_levelTarget 0.9 enabled))).
Proof.
  refine (X9_bars_grow_with_the_level 150 150 _ _ _ _).
  - reflexivity.
  - vm_compute. discriminate.
Defined.

(** X10. With the ten bars that [_buildOverlay] creates, the heights
    that a meter tick sets read the same from both ends, no bar is
    higher than the fourth and the seventh, whose weight is 1; a
    smoothed level of zero or less puts every bar at the minimum height,
    and a smoothed level of one or more puts the fourth and the seventh
    bar at the maximum height. *)
Theorem X10_bar_profile :
  forall (now : Q) (st : ext),
    List.length (_bars st) = BAR_COUNT ->
    rev (_bars (meterTimeout now st)) = _bars (meterTimeout now st)
    /\ Forall (fun h => (h <= nth 3 (_bars (meterTimeout now st)) 0)%Z)
              (_bars (meterTimeout now st))
    /\ nth 6 (_bars (meterTimeout now st)) 0%Z = nth 3 (_bars (meterTimeout now st)) 0%Z
    /\ (_level (meterTimeout now st) <= 0 ->
        _bars (meterTimeout now st) = repeat BAR_MIN_HEIGHT BAR_COUNT)
    /\ (1 <= _level (meterTimeout now st) ->
        nth 3 (_bars (meterTimeout now st)) 0%Z = BAR_MAX_HEIGHT).
Proof.
  intros now st Hlen.
  assert (B : _bars (meterTimeout now st)
              = forEachBar (Math_max 0 (Math_min 1 (smooth (_levelTarget st) (_level st))))
                           0 (_bars st)) by (destruct st; reflexivity).
  destruct (meterTimeout_level now st) as [E _]. rewrite E, B.
  pose proof (clamp_bounds (smooth (_levelTarget st) (_level st))) as Hc.
  set (c := Math_max 0 (Math_min 1 (smooth (_levelTarget st) (_level st)))) in *.
  destruct (_bars st) as [|b0 [|b1 [|b2 [|b3 [|b4 [|b5 [|b6 [|b7 [|b8 [|b9 [|b10 l]]]]]]]]]]];
    try discriminate Hlen.
  cbn [forEachBar Nat.modulo Nat.divmod BAR_WEIGHTS List.length nth fst snd Nat.sub].
  change (inject_Z BAR_MIN_HEIGHT) with 10.
  change (inject_Z (BAR_MAX_HEIGHT - BAR_MIN_HEIGHT)) with 16.
  repeat apply conj.
  - reflexivity.
  - assert (M : forall w, w <= 1 ->
                          (Math_round (10 + 16 * c * w) <= Math_round (10 + 16 * c * 1.0))%Z).
    { intros w Hw. apply Math_round_le.
      assert (c * w <= c * 1.0) by (rewrite !(Qmult_comm c); apply Qmult_le_compat_r; lra).
      lra. }
    repeat constructor; apply M; lra.
  - reflexivity.
  - intros Hz.
    assert (Ec : c == 0).
    { unfold c, Math_max, Math_min in *.
      destruct (Qle_bool_spec 1 (smooth (_levelTarget st) (_level st)));
        match goal with |- context [Qle_bool ?a ?b] => destruct (Qle_bool_spec a b) end;
        lra. }
    assert (R : forall w, Math_round (10 + 16 * c * w) = BAR_MIN_HEIGHT).
    { intros w. unfold Math_round.
      assert (Ew : 10 + 16 * c * w + (1 # 2) == 21 # 2) by (rewrite Ec; ring).
      rewrite (Qfloor_comp _ _ Ew). reflexivity. }
    rewrite !R. reflexivity.
  - intros Ho.
    assert (Ec : c == 1).
    { unfold c, Math_max, Math_min in *.
      destruct (Qle_bool_spec 1 (smooth (_levelTarget st) (_level st)));
        match goal with |- context [Qle_bool ?a ?b] => destruct (Qle_bool_spec a b) end;
        lra. }
    unfold Math_round.
    assert (Ew : 10 + 16 * c * 1.0 + (1 # 2) == 53 # 2) by (rewrite Ec; ring).
    rewrite (Qfloor_comp _ _ Ew). reflexivity.
Qed.

Lemma X10_bar_profile_witness :
  rev (_bars (meterTimeout 150 (set_levelTarget 0.9 enabled)))
  = _bars (meterTimeout 150 (set_levelTarget 0.9 enabled)).
Proof.
  refine (proj1 (X10_bar_profile 150 (set_levelTarget 0.9 enabled) _)).
  reflexivity.
Defined.

(** ** The clock label *)

Lemma padStart2_seconds (n : nat) :
  (n < 60)%nat -> String.length (padStart2 (decimal (Z.of_nat n))) = 2%nat.
Proof.
  intros H.
  do 60 (destruct n as [|n]; [reflexivity|]).
  lia.
Qed.



(** ** The panel button *)

Lemma presses_other (bs : list (Q * button)) :
  Forall (fun tb => snd tb <> BUTTON_PRIMARY) bs ->
  forall st, presses bs st = st.
Proof.
  induction 1 as [|[t b] bs Hb _ IH]; intros st; cbn [presses].
  - reflexivity.
  - cbn [snd] in Hb. destruct b; [contradiction| |]; cbn; apply IH.
Qed.

(** X12. Only presses of the primary button reach the click
    disambiguator.  A press of the secondary button asks the menu to
    toggle, a press of any other button asks nothing, and neither
    changes the state; a primary press asks the menu to close.  So with
    no click pending, two primary presses with any other presses in
    between spawn the open-app command once and leave no click pending,
    and a single primary press followed by other presses leaves the
    click pending until its timer fires. *)
Theorem X12_only_primary_presses_count :
  forall (t1 t2 : Q) (between : list (Q * button)) (st : ext),
    _clickTimerId st = None ->
    Forall (fun tb => snd tb <> BUTTON_PRIMARY) between ->
    (forall t b, b <> BUTTON_PRIMARY ->
                 fst (fst (buttonPress t b st)) = st
                 /\ snd (fst (buttonPress t b st))
                    = (if match b with BUTTON_SECONDARY => true | _ => false end
                       then MenuToggle else MenuUntouched))
    /\ snd (fst (buttonPress t1 BUTTON_PRIMARY st)) = MenuClose
    /\ snd (buttonPress t1 BUTTON_PRIMARY st) = EVENT_STOP
    /\ _clickTimerId (presses ((t1, BUTTON_PRIMARY) :: between) st)
       = Some (t1 + DOUBLE_CLICK_MS)
    /\ spawned (presses ((t1, BUTTON_PRIMARY) :: between) st) = spawned st
    /\ _clickTimerId
         (presses ((t1, BUTTON_PRIMARY) :: between ++ [(t2, BUTTON_PRIMARY)]) st) = None
    /\ spawned
         (presses ((t1, BUTTON_PRIMARY) :: between ++ [(t2, BUTTON_PRIMARY)]) st)
       = Show :: spawned st.
Proof.
  intros t1 t2 between st Hidle Hbetween.
  assert (P : forall bs s, presses (between ++ bs) s = presses bs s).
  { intros bs s. revert s.
    induction Hbetween as [|[t b] l Hb _ IH]; intros s; cbn [app presses].
    - reflexivity.
    - cbn [snd] in Hb. destruct b; [contradiction| |]; cbn; apply IH. }
  assert (E1 : _clickTimerId (_handlePrimaryClick t1 st) = Some (t1 + DOUBLE_CLICK_MS)
               /\ spawned (_handlePrimaryClick t1 st) = spawned st).
  { unfold _handlePrimaryClick. rewrite Hidle. destruct st; split; reflexivity. }
  destruct E1 as [E1 E2].
  repeat apply conj; try reflexivity.
  - intros t b Hb. destruct b; [contradiction| |]; split; reflexivity.
  - cbn [presses buttonPress fst]. rewrite (presses_other between Hbetween). exact E1.
  - cbn [presses buttonPress fst]. rewrite (presses_other between Hbetween). exact E2.
  - cbn [presses buttonPress fst]. rewrite P. cbn [presses buttonPress fst].
    unfold _handlePrimaryClick at 1. rewrite E1.
    unfold _openApp, _clearClickTimer. rewrite E1.
    destruct (_handlePrimaryClick t1 st); reflexivity.
  - cbn [presses buttonPress fst]. rewrite P. cbn [presses buttonPress fst].
    unfold _handlePrimaryClick at 1. rewrite E1.
    unfold _openApp, _clearClickTimer. rewrite E1.
    rewrite <- E2. destruct (_handlePrimaryClick t1 st); reflexivity.
Qed.

Lemma X12_only_primary_presses_count_witness :
  spawned (presses [(0, BUTTON_PRIMARY); (50, BUTTON_SECONDARY); (90, BUTTON_OTHER);
                    (120, BUTTON_PRIMARY)] enabled) = [Show].
Proof.
  refine (proj2 (proj2 (proj2 (proj2 (proj2 (proj2
           (X12_only_primary_presses_count 0 120
              [(50, BUTTON_SECONDARY); (90, BUTTON_OTHER)] enabled _ _))))))).
  - reflexivity.
  - apply Forall_cons; [discriminate|]. apply Forall_cons; [discriminate|]. apply Forall_nil.
Defined.

(** ** The Recent submenu and the clipboard *)

Lemma nonEmpty_spec (s : string) : nonEmpty s = true <-> s <> ""%string.
Proof.
  unfold nonEmpty. rewrite negb_true_iff. apply String.eqb_neq.
Qed.

Lemma prop_none (data : value) (key : string) :
  prop data key = None <-> data = VNull \/ data = VUndefined.
Proof.
  destruct data; cbn; split; intros H; try discriminate; auto;
    destruct H as [H|H]; discriminate.
Qed.

Lemma itemLabel_none (item : value) :
  itemLabel item = None <-> item = VNull \/ item = VUndefined.
Proof.
  split.
  - intros H. apply (prop_none item "preview").
    unfold itemLabel in H.
    destruct (prop item "preview") as [p|] eqn:Ep; [|reflexivity].
    exfalso. cbn [bind] in H.
    assert (Et : prop item "text" <> None).
    { intros Et. apply prop_none in Et. apply (prop_none item "preview") in Et. congruence. }
    destruct (prop item "text"); [|congruence].
    destruct (isString p) as [s|]; cbn [bind] in H;
      [destruct (nonEmpty s)|]; discriminate.
  - intros [-> | ->]; reflexivity.
Qed.

Lemma itemLabel_nonEmpty (item : value) (label : string) :
  itemLabel item = Some label -> label <> ""%string.
Proof.
  unfold itemLabel.
  destruct (prop item "preview") as [p|]; cbn [bind]; [|discriminate].
  assert (T : forall r,
             (t <- prop item "text" ;;
              Some (if nonEmpty match isString t with Some s' => s' | None => ""%string end
                    then match isString t with Some s' => s' | None => ""%string end
                    else "Untitled transcript"%string)) = Some r ->
             r <> ""%string).
  { intros r. destruct (prop item "text") as [t|]; cbn [bind]; [|discriminate].
    destruct (nonEmpty _) eqn:E; intros [= <-].
    - now apply nonEmpty_spec.
    - discriminate. }
  destruct (isString p) as [s|].
  - destruct (nonEmpty s) eqn:E.
    + intros [= <-]. now apply nonEmpty_spec.
    + apply T.
  - apply T.
Qed.

Lemma forEachRecent_spec (recent : list value) :
  match forEachRecent recent with
  | None => Exists (fun item => item = VNull \/ item = VUndefined) recent
  | Some entries =>
      Forall2 (fun item entry =>
                 exists label, entry = CopyTranscript label item
                               /\ itemLabel item = Some label
                               /\ label <> ""%string)
              recent entries
  end.
Proof.
  induction recent as [|item rest IH]; cbn [forEachRecent].
  - constructor.
  - destruct (itemLabel item) as [label|] eqn:El; cbn [bind].
    + destruct (forEachRecent rest) as [entries|]; cbn [bind].
      * constructor; [|exact IH].
        exists label. repeat split; [exact El|]. eapply itemLabel_nonEmpty; eassumption.
      * apply Exists_cons_tl. exact IH.
    + apply Exists_cons_hd. now apply itemLabel_none.
Qed.

(** X13. Rebuilding the Recent submenu.  With no recent transcript the
    submenu holds the single entry "No recent transcripts".  Otherwise,
    provided no element of the list is [null], it holds one entry per
    transcript, in the order of the list, each with a label that is not
    empty (the preview, else the text, else "Untitled transcript"),
    followed by a separator and "Show All Transcripts".  The rebuild
    raises exactly when an element of the list is [null] (or
    [undefined]). *)
Theorem X13_recent_submenu :
  forall (recent : list value),
    (recentMenuItems recent = None
     <-> Exists (fun item => item = VNull \/ item = VUndefined) recent)
    /\ (recent = [] -> recentMenuItems recent = Some [Plain "No recent transcripts"])
    /\ (forall items,
           recent <> [] -> recentMenuItems recent = Some items ->
           exists entries,
             items = entries ++ [Separator; ShowAll "Show All Transcripts"]
             /\ List.length entries = List.length recent
             /\ Forall2 (fun item entry =>
                           exists label, entry = CopyTranscript label item
                                         /\ itemLabel item = Some label
                                         /\ label <> ""%string)
                        recent entries).
Proof.
  intros recent. pose proof (forEachRecent_spec recent) as H.
  repeat apply conj.
  - destruct recent as [|item rest]; [cbn; intros; discriminate|].
    unfold recentMenuItems. intros Hn.
    destruct (forEachRecent (item :: rest)); [discriminate | exact H].
  - destruct recent as [|item rest]; [intros Hn; inversion Hn|].
    unfold recentMenuItems. intros Hn.
    destruct (forEachRecent (item :: rest)) as [entries|]; [|reflexivity].
    exfalso. clear -H Hn. revert entries H.
    induction Hn as [x l Hx | x l _ IH]; intros entries H;
      inversion H as [|a b la lb Hab Hrest]; subst.
    + destruct Hab as (label & _ & Hl & _).
      apply itemLabel_none in Hx. congruence.
    + eapply IH. exact Hrest.
  - intros ->. reflexivity.
  - intros items Hne. destruct recent as [|item rest]; [congruence|].
    unfold recentMenuItems.
    destruct (forEachRecent (item :: rest)) as [entries|]; cbn [bind]; [|discriminate].
    intros [= <-]. exists entries. repeat split; [|exact H].
    symmetry. eapply Forall2_length. exact H.
Qed.

Lemma X13_recent_submenu_witness :
  recentMenuItems [] = Some [Plain "No recent transcripts"].
Proof.
  apply (X13_recent_submenu []). reflexivity.
Defined.



(** ** The command to spawn *)

Lemma length_pos_nonEmpty (s : string) :
  (0 <? String.length s)%nat = true -> s <> ""%string.
Proof.
  destruct s; cbn; [discriminate|]. intros _. discriminate.
Qed.

Lemma _readConfigCommand_spec (trim : string -> string) (config : document) (c : string) :
  _readConfigCommand trim config = Some c ->
  c <> ""%string
  /\ exists data s, config = Parsed data
                    /\ prop data "binary" = Some (VString s) /\ c = trim s.
Proof.
  unfold _readConfigCommand.
  destruct config as [| | |data]; try discriminate.
  destruct (prop data "binary") as [b|] eqn:Eb; [|discriminate].
  destruct b; cbn [isString]; try discriminate.
  destruct (0 <? String.length (trim s))%nat eqn:El; [|discriminate].
  intros [= <-]. split; [now apply length_pos_nonEmpty|].
  exists data, s. auto.
Qed.



(** ** Placing the overlay *)

Lemma Math_round_near (x : Q) :
  x - (1 # 2) < inject_Z (Math_round x) <= x + (1 # 2).
Proof.
  unfold Math_round. split.
  - pose proof (Qlt_floor (x + (1 # 2))) as H.
    rewrite inject_Z_plus in H. change (inject_Z 1) with 1 in H. lra.
  - apply Qfloor_le.
Qed.

(** X16. With a primary monitor, [_positionOverlay] centres the overlay:
    the margin left of it and the margin right of it differ by at most
    one pixel, and its lower edge lies [MARGIN_BOTTOM] (32) pixels above
    the lower edge of the monitor, to within half a pixel, and exactly so
    when the monitor and the overlay have whole-pixel geometry.  With no
    primary monitor the position is left as it is. *)
Theorem X16_overlay_position :
  forall (naturalWidth naturalHeight : Q) (position : Z * Z),
    _positionOverlay None naturalWidth naturalHeight position = position
    /\ (forall m,
           let x := inject_Z (fst (_positionOverlay (Some m) naturalWidth naturalHeight position)) in
           let y := inject_Z (snd (_positionOverlay (Some m) naturalWidth naturalHeight position)) in
           let left := x - geo_x m in
           let right := geo_x m + geo_width m - (x + naturalWidth) in
           let below := geo_y m + geo_height m - (y + naturalHeight) in
           -1 < left - right <= 1
           /\ MARGIN_BOTTOM - (1 # 2) <= below < MARGIN_BOTTOM + (1 # 2)
           /\ (forall k : Z,
                  geo_y m + geo_height m - naturalHeight == inject_Z k ->
                  below == MARGIN_BOTTOM)).
Proof.
  intros naturalWidth naturalHeight position. split; [reflexivity|].
  intros m. cbn [_positionOverlay fst snd]. cbv zeta.
  pose proof (Math_round_near (geo_x m + (geo_width m - naturalWidth) / 2)) as Hx.
  pose proof (Math_round_near (geo_y m + geo_height m - naturalHeight - MARGIN_BOTTOM)) as Hy.
  assert (Hhalf : (geo_width m - naturalWidth) / 2 * 2 == geo_width m - naturalWidth)
    by (field).
  unfold MARGIN_BOTTOM in *.
  repeat apply conj; try lra.
  intros k Hk.
  assert (Ek : inject_Z (k - 32) == inject_Z k - 32).
  { unfold Z.sub. rewrite inject_Z_plus, inject_Z_opp.
    change (inject_Z 32) with 32. ring. }
  assert (E : geo_y m + geo_height m - naturalHeight - 32 + (1 # 2)
              == inject_Z (k - 32) + (1 # 2)) by lra.
  unfold Math_round. rewrite (Qfloor_comp _ _ E).
  assert (F : Qfloor (inject_Z (k - 32) + (1 # 2)) = (k - 32)%Z).
  { apply Z.le_antisymm.
    - assert (H : (Qfloor (inject_Z (k - 32) + (1 # 2)) < (k - 32) + 1)%Z); [|lia].
      rewrite Zlt_Qlt. eapply Qle_lt_trans; [apply Qfloor_le|].
      rewrite inject_Z_plus. change (inject_Z 1) with 1. lra.
    - rewrite <- (Qfloor_Z (k - 32)) at 1. apply Qfloor_resp_le. lra. }
  rewrite F. lra.
Qed.

Lemma X16_overlay_position_witness :
  let m := mkGeometry 0 0 1920 1080 in
  let y := inject_Z (snd (_positionOverlay (Some m) 400 64 (0, 0)%Z)) in
  geo_y m + geo_height m - (y + 64) == MARGIN_BOTTOM.
Proof.
  intros m y.
  refine (proj2 (proj2 (proj2 (X16_overlay_position 400 64 (0, 0)%Z) m)) 1016%Z _).
  reflexivity.
Defined.

(** ** Teardown *)

(** X17. After [disable] nothing can reach the extension any more: the
    seven timer fields hold [null], the monitor and the panel button are
    gone, so no signal and no timeout callback can be delivered.  A click
    that was pending is dropped without spawning anything, and the
    overlay is not visible. *)
Theorem X17_disable_leaves_nothing_running :
  forall (e : extension),
    _meterTimerId (fields (disable e)) = None
    /\ _clockTimerId (fields (disable e)) = None
    /\ _pollTimerId (fields (disable e)) = None
    /\ _clickTimerId (fields (disable e)) = None
    /\ _statusTimerId (fields (disable e)) = None
    /\ _loadOverlayTimerId (fields (disable e)) = None
    /\ _loadTrayTimerId (fields (disable e)) = None
    /\ _monitor (disable e) = false
    /\ _indicator (disable e) = false
    /\ overlayVisible (fields (disable e)) = false
    /\ spawned (fields (disable e)) = spawned (fields e)
    /\ (forall now o, deliver now o (disable e) = None).
Proof.
  intros [st mon ind].
  assert (T : _meterTimerId (fields (disable (mkExtension st mon ind))) = None
              /\ _clockTimerId (fields (disable (mkExtension st mon ind))) = None
              /\ _pollTimerId (fields (disable (mkExtension st mon ind))) = None
              /\ _clickTimerId (fields (disable (mkExtension st mon ind))) = None
              /\ _statusTimerId (fields (disable (mkExtension st mon ind))) = None
              /\ _loadOverlayTimerId (fields (disable (mkExtension st mon ind))) = None
              /\ _loadTrayTimerId (fields (disable (mkExtension st mon ind))) = None
              /\ overlayVisible (fields (disable (mkExtension st mon ind))) = false
              /\ spawned (fields (disable (mkExtension st mon ind))) = spawned st).
  { destruct st as [bars r s l lt tr er e rc hk [m|] [c|] [p|] [ck|] [stt|] [lo|] [ltr|]
                         ov tv tt ic sp];
      vm_compute; repeat split. }
  destruct T as (T1 & T2 & T3 & T4 & T5 & T6 & T7 & T8 & T9).
  assert (M : _monitor (disable (mkExtension st mon ind)) = false) by reflexivity.
  assert (I : _indicator (disable (mkExtension st mon ind)) = false) by reflexivity.
  repeat apply conj; try assumption.
  intros now o.
  destruct o; unfold deliver; rewrite ?M, ?I; try reflexivity;
    unfold dispatch, isDue;
    rewrite ?T1, ?T2, ?T3, ?T4, ?T5, ?T6, ?T7; reflexivity.
Qed.

(** ** Signals, documents and time *)

(** X18. A [changed] signal never loads a document by itself: all it can
    do is install one or both debounce timers, every other field stays
    as it is; and a signal that names neither document, by its final
    name or by the name of its temporary file, changes nothing at all. *)
Theorem X18_changed_only_arms_timers :
  forall (now : Q) (file otherFile : option string) (st : ext),
    (exists a b,
        changed now file otherFile st
        = set_loadTrayTimerId b (set_loadOverlayTimerId a st))
    /\ (overlayNotification (Changed file otherFile) = false ->
        trayNotification (Changed file otherFile) = false ->
        changed now file otherFile st = st).
Proof.
  intros now file otherFile st.
  unfold changed, overlayNotification, trayNotification,
    _scheduleLoadTray, _scheduleLoadOverlay.
  split.
  - destruct (refersTo STATE_FILE STATE_TMP_FILE _);
      destruct (refersTo TRAY_FILE TRAY_TMP_FILE _);
      destruct st as [bars r s l lt tr er e rc hk m c p ck stt [lo|] [ltr|] ov tv tt ic sp];
      do 2 eexists; unfold set_loadTrayTimerId, set_loadOverlayTimerId; cbn;
      reflexivity.
  - intros -> ->. reflexivity.
Qed.

Lemma X18_changed_only_arms_timers_witness :
  changed 10 (Some "settings.json"%string) (Some "history.db"%string) enabled = enabled.
Proof.
  refine (proj2 (X18_changed_only_arms_timers 10 (Some "settings.json"%string)
                   (Some "history.db"%string) enabled) _ _).
  - reflexivity.
  - reflexivity.
Defined.

(** X19. Waiting never makes a recording document fresh again: a
    document that is read as not recording at some time is read as not
    recording at every later time, and one that is found stale stays
    stale. *)
Theorem X19_stale_stays_stale :
  forall (t t' : Q) (doc : document),
    t <= t' ->
    recording (overlayLocals t doc) = false ->
    recording (overlayLocals t' doc) = false
    /\ (isStale t (overlayRead doc) = true -> isStale t' (overlayRead doc) = true).
Proof.
  intros t t' doc Hle.
  assert (M : isStale t (overlayRead doc) = true -> isStale t' (overlayRead doc) = true).
  { unfold isStale. destruct (recording (overlayRead doc)); [|discriminate].
    cbn [andb]. destruct (updatedAtMs (overlayRead doc)) as [u|]; [|discriminate].
    destruct (Qiszero u); [discriminate|]. cbn [negb andb].
    destruct (Qltb_spec STALE_STATE_MS (t - u)); [|discriminate].
    intros _. destruct (Qltb_spec STALE_STATE_MS (t' - u)); [reflexivity|lra]. }
  unfold overlayLocals. cbv zeta.
  destruct (isStale t (overlayRead doc)) eqn:E.
  - intros _. rewrite (M eq_refl). split; [reflexivity | auto].
  - intros Hr. split; [|discriminate].
    destruct (isStale t' (overlayRead doc)); [reflexivity | exact Hr].
Qed.

Lemma X19_stale_stays_stale_witness :
  let doc := Parsed (VObject [("recording"%string, VBool true);
                              ("updated_at_ms"%string, VNumber (Finite 1000))]) in
  recording (overlayLocals 90000 doc) = false.
Proof.
  intros doc.
  refine (proj1 (X19_stale_stays_stale 7000 90000 doc _ _)).
  - discriminate.
  - reflexivity.
Defined.

Lemma _updateIndicator_tray (now : Q) (st : ext) :
  _trayRecent (_updateIndicator now st) = _trayRecent st
  /\ _lastTranscriptAtMs (_updateIndicator now st) = _lastTranscriptAtMs st
  /\ _lastErrorAtMs (_updateIndicator now st) = _lastErrorAtMs st
  /\ _lastError (_updateIndicator now st) = _lastError st
  /\ _hotkeys (_updateIndicator now st) = _hotkeys st.
Proof.
  destruct (_updateIndicator_shape now st) as (icon & timer & ->).
  destruct st; repeat split.
Qed.

(** X20. The two documents are loaded independently of each other: a
    load of the recording document leaves the recent list, the two
    tray time stamps, the last error and the hotkeys as they are, and a
    load of the tray document leaves the recording state, the overlay,
    the levels, the bars, the meter timer and the clock timer as they
    are; neither touches the debounce timers of the other or the
    click timer. *)
Theorem X20_documents_are_independent :
  forall (now : Q) (doc : document) (st : ext),
    (_trayRecent (_loadOverlayState now doc st) = _trayRecent st
     /\ _lastTranscriptAtMs (_loadOverlayState now doc st) = _lastTranscriptAtMs st
     /\ _lastErrorAtMs (_loadOverlayState now doc st) = _lastErrorAtMs st
     /\ _lastError (_loadOverlayState now doc st) = _lastError st
     /\ _hotkeys (_loadOverlayState now doc st) = _hotkeys st)
    /\ sameOverlay (_loadTrayState now doc st) st
    /\ sameInputs (_loadOverlayState now doc st) st
    /\ sameInputs (_loadTrayState now doc st) st.
Proof.
  intros now doc st.
  split; [|split; [apply _loadTrayState_overlay
                  |split; [apply _loadOverlayState_inputs | apply _loadTrayState_inputs]]].
  unfold _loadOverlayState, _showOverlay, _hideOverlay.
  destruct (recording (overlayLocals now doc));
    match goal with
    | |- context [_updateIndicator now ?s] =>
        destruct (_updateIndicator_tray now s) as (A & B & C & D & E)
    end;
    rewrite A, B, C, D, E.
  - unfold _startClock, _updateClock, _startMeter.
    destruct st as [bars r s l lt tr er e rc hk [m|] [c|] p ck stt lo ltr ov tv tt ic sp];
      destruct (startedAtMs (overlayLocals now doc)) as [q|]; cbn;
      try destruct (Qiszero q); repeat split.
  - unfold _stopClock, _stopMeter.
    destruct st as [bars r s l lt tr er e rc hk [m|] [c|] p ck stt lo ltr ov tv tt ic sp];
      repeat split.
Qed.
